(** * teaming/extract_providers_to_graphml.py

    A shallow embedding of the provider-graph extraction script: the row
    normaliser, the edge classifier and its counters, the staging-table
    queries that resolve core and leaf nodes, the networkx graph that is
    assembled from them, the CSV exporters and the command-line dispatch.

    Python dictionaries are finite maps ([gmap]); SQL result sets are lists
    of rows in the order the cursor yields them; code that can raise or that
    touches the database and the file system runs in a small state and
    error monad over a [world]. *)

From stdpp Require Import gmap strings list fin_maps sorting.
From Stdlib Require Import Ascii OrdersEx.

Local Open Scope string_scope.
Local Open Scope list_scope.

(** ** Values and rows *)

(** The Python values that travel through the script: [None] (an SQL NULL),
    character data and integers. *)
Inductive value :=
  | PyNone
  | PyStr (s : string)
  | PyInt (n : Z).

#[global] Instance value_eq_dec : EqDecision value.
Proof. solve_decision. Defined.

(** [x is not None] *)
Definition is_not_None (v : value) : bool :=
  match v with PyNone => false | _ => true end.

(** A pyodbc row: the column names of [cursor_description] paired with the
    positional values [row_obj[i]], and the value its [npi] attribute
    resolves to. *)
Record Row := {
  npi : string;
  columns : list (string * value)
}.

(** ** Record normaliser *)

(** [row_to_dictionary(row_obj, exclude_None=True)] *)
Definition row_to_dictionary (row_obj : Row) (exclude_None : bool)
  : gmap string value :=
  foldl (λ row_dict col,
           if exclude_None then
             if is_not_None col.2 then <[col.1 := col.2]> row_dict
             else row_dict
           else row_dict)
        ∅ (columns row_obj).

(** Truth value of an optional string, as tested by [if label_name:]. *)
Definition truthy (label_name : option string) : bool :=
  match label_name with
  | Some s => if decide (s = "") then false else true
  | None => false
  end.

(** The body of the loop of [add_nodes_to_graph] up to the call of
    [graph.add_node]: the dictionary named [attributes]. *)
Definition attributes (node : Row) (node_type : string)
    (label_name : option string) : gmap string value :=
  let attributes := row_to_dictionary node true in
  let attributes :=
    match label_name with
    | Some l =>
        if truthy label_name then
          match attributes !! l with
          | Some v => <["Label" := v]> attributes
          | None => attributes
          end
        else attributes
    | None => attributes
    end in
  <["node_type" := PyStr node_type]> attributes.

(** The last non-null value a row holds under the column name [k]: what the
    specification calls the row's non-null column [k]. *)
Definition non_null_column (row : Row) (k : string) : option value :=
  last (omap (λ col : string * value,
                if decide (col.1 = k) then
                  if is_not_None col.2 then Some col.2 else None
                else None)
             (columns row)).

(** ** The networkx graph *)

(** The part of networkx 1.x the script relies on.  [node] maps a node to its
    attribute dictionary and [edge] maps a node to the dictionary of its
    neighbours, itself mapping a neighbour to the data of the edge; these are
    the dictionaries [G.node] and [G.edge] that the exporters enumerate.  The
    script sets both [weight] and [edge_type] on every edge it adds, so the
    data of an edge is a record of the two. *)
Module nx.

Record edge_data := {
  weight : value;
  edge_type : string
}.

Record graph := {
  directed : bool;
  node : gmap string (gmap string value);
  edge : gmap string (gmap string edge_data)
}.

(** [nx.DiGraph()] and [nx.Graph()] *)
Definition DiGraph : graph := {| directed := true; node := ∅; edge := ∅ |}.
Definition Graph : graph := {| directed := false; node := ∅; edge := ∅ |}.

(** [G.add_node(n, attr_dict)]: a new node takes [attr_dict]; for a node
    already present the dictionary it has is updated with [attr_dict]. *)
Definition add_node (n : string) (attr_dict : gmap string value) (G : graph) : graph :=
  match node G !! n with
  | None =>
      {| directed := directed G;
         node := <[n := attr_dict]> (node G);
         edge := <[n := ∅]> (edge G) |}
  | Some old =>
      {| directed := directed G;
         node := <[n := attr_dict ∪ old]> (node G);
         edge := edge G |}
  end.

(** An endpoint of a new edge that is not yet a node becomes one, with no
    attributes. *)
Definition touch (n : string) (G : graph) : graph :=
  match node G !! n with
  | None =>
      {| directed := directed G;
         node := <[n := ∅]> (node G);
         edge := <[n := ∅]> (edge G) |}
  | Some _ => G
  end.

(** [G.edge[u][v] = data] *)
Definition set_edge (u v : string) (data : edge_data) (G : graph) : graph :=
  {| directed := directed G;
     node := node G;
     edge := <[u := <[v := data]> (default ∅ (edge G !! u))]> (edge G) |}.

(** [G.add_edge(u, v, weight=w, edge_type=t)]: a directed graph stores the
    edge under [u]; an undirected one under both endpoints. *)
Definition add_edge (u v : string) (data : edge_data) (G : graph) : graph :=
  let G := touch u G in
  let G := touch v G in
  let G := set_edge u v data G in
  if directed G then G else set_edge v u data G.

(** The enumeration [for node1 in G.edge: for node2 in G.edge[node1]]. *)
Definition edges (G : graph) : list (string * string * edge_data) :=
  nbrs ← map_to_list (edge G);
  (λ nb : string * edge_data, (nbrs.1, nb.1, nb.2)) <$> map_to_list nbrs.2.

(** The enumeration [for node in G.node]. *)
Definition nodes (G : graph) : list (string * gmap string value) :=
  map_to_list (node G).

End nx.

(** ** Adding nodes *)

(** [add_nodes_to_graph(cursor, graph, node_type, label_name)]; [cursor] is
    the result set the cursor holds. *)
Definition add_nodes_to_graph (cursor : list Row) (graph : nx.graph)
    (node_type : string) (label_name : option string) : nx.graph :=
  foldl (λ graph node,
           nx.add_node (npi node) (attributes node node_type label_name) graph)
        graph cursor.

(** ** Edge classifier *)

(** A row of the edge queries: the three positional columns [edge[0]],
    [edge[1]], [edge[2]] and the two named tier columns. *)
Record EdgeRow := {
  edge0 : string;
  edge1 : string;
  edge2 : value;
  to_node_type : string;
  from_node_type : string
}.

#[global] Instance EdgeRow_eq_dec : EqDecision EdgeRow.
Proof. solve_decision. Defined.

(** The [if]/[elif] chain of [add_edges_to_graph]. *)
Definition edge_type (edge : EdgeRow) : string :=
  if decide (to_node_type edge = "C" ∧ from_node_type edge = "C") then "core-to-core"
  else if decide (to_node_type edge = "L" ∧ from_node_type edge = "C") then "leaf-to-core"
  else if decide (to_node_type edge = "C" ∧ from_node_type edge = "L") then "core-to-leaf"
  else if decide (to_node_type edge = "L" ∧ from_node_type edge = "L") then "leaf-to-leaf"
  else "None".

(** What one pass of [add_edges_to_graph] leaves behind: the graph it
    returns, and the two things it logs, the number of imported rows and
    [counter_dict]. *)
Record edge_import := {
  graph_of : nx.graph;
  imported : Z;
  counter_dict : gmap string Z
}.

(** One iteration of the loop of [add_edges_to_graph]. *)
Definition add_edge_row (st : edge_import) (edge : EdgeRow) : edge_import :=
  let edge_type := edge_type edge in
  let counter_dict :=
    match counter_dict st !! edge_type with
    | Some n => <[edge_type := (n + 1)%Z]> (counter_dict st)
    | None => <[edge_type := 0%Z]> (counter_dict st)
    end in
  {| graph_of :=
       nx.add_edge (edge0 edge) (edge1 edge)
         {| nx.weight := edge2 edge; nx.edge_type := edge_type |} (graph_of st);
     imported := (imported st + 1)%Z;
     counter_dict := counter_dict |}.

(** [add_edges_to_graph(cursor, graph)] *)
Definition add_edges_to_graph (cursor : list EdgeRow) (graph : nx.graph) : edge_import :=
  foldl add_edge_row
        {| graph_of := graph; imported := 0%Z; counter_dict := ∅ |} cursor.

(** ** The world: database and files *)

(** A row of the referral table: the columns named by
    [FIELD_NAME_FROM_RELATIONSHIP], [FIELD_NAME_TO_RELATIONSHIP] and
    [FIELD_NAME_WEIGHT]. *)
Record referral_row := {
  field_from_relationship : string;
  field_to_relationship : string;
  field_weight : value
}.

(** A row of the NPI detail table: its [npi] column and the other columns. *)
Record detail_row := {
  tnd_npi : string;
  tnd_columns : list (string * value)
}.

(** A row of [npi_to_export_to_graph (npi char(10), node_type char(1))]. *)
Record staged := {
  neg_npi : string;
  neg_node_type : string
}.

#[global] Instance staged_eq_dec : EqDecision staged.
Proof. solve_decision. Defined.

(** The staging table and whether [idx_primary_npi_graph], the unique index
    on [npi], has been created on it. *)
Record staging_table := {
  rows : list staged;
  idx_primary_npi_graph : bool
}.

Record database := {
  referral_table : list referral_row;
  npi_detail_table : list detail_row;
  npi_to_export_to_graph : option staging_table
}.

(** What an output file holds: the graph handed to [nx.write_graphml], or
    the rows handed to a [csv.writer] so far. *)
Inductive file :=
  | GraphML (G : nx.graph)
  | CSV (written : list (list value)).

Record world := {
  db : database;
  files : gmap string file
}.

(** ** Exceptions and the monad of the script *)

Inductive exception :=
  | UnboundLocalError (name : string)
  | IntegrityError
  | ProgrammingError
  | IndexError
  | IOError.

Inductive result (A : Type) :=
  | Ok (a : A)
  | Raise (e : exception).
Arguments Ok {A} a.
Arguments Raise {A} e.

(** A computation runs in a world, returns or raises, and leaves a world
    behind in both cases. *)
Definition M (A : Type) : Type := world → result A * world.

#[global] Instance M_ret : MRet M := λ A a w, (Ok a, w).
#[global] Instance M_bind : MBind M := λ A B f m w,
  match m w with
  | (Ok a, w') => f a w'
  | (Raise e, w') => (Raise e, w')
  end.

Definition raise {A} (e : exception) : M A := λ w, (Raise e, w).

(** Reading a local variable that may not have been assigned. *)
Definition read_local {A} (name : string) (v : option A) : M A :=
  match v with
  | Some a => mret a
  | None => raise (UnboundLocalError name)
  end.

(** [for x in l: body], threading the local variables [s] the body assigns. *)
Fixpoint for_each {A S} (l : list A) (body : S → A → M S) (s : S) : M S :=
  match l with
  | [] => mret s
  | x :: l => s' ← body s x; for_each l body s'
  end.

(** [cursor.execute] of a statement that changes the database, and of a
    query that reads the staging table, whose result set the cursor then
    holds; the query fails when the staging table does not exist. *)
Definition execute (stmt : database → result database) : M () := λ w,
  match stmt (db w) with
  | Ok d => (Ok (), {| db := d; files := files w |})
  | Raise e => (Raise e, w)
  end.

Definition select {A} (query : database → staging_table → list A) : M (list A) := λ w,
  match npi_to_export_to_graph (db w) with
  | Some neg => (Ok (query (db w) neg), w)
  | None => (Raise ProgrammingError, w)
  end.

(** ** SQL statements on the staging table *)

Definition with_staging {A} (d : database) (k : staging_table → result A) : result A :=
  match npi_to_export_to_graph d with
  | Some t => k t
  | None => Raise ProgrammingError
  end.

Definition set_staging (d : database) (t : option staging_table) : database :=
  {| referral_table := referral_table d;
     npi_detail_table := npi_detail_table d;
     npi_to_export_to_graph := t |}.

(** [drop table if exists npi_to_export_to_graph;] *)
Definition drop_table_sql (d : database) : result database :=
  Ok (set_staging d None).

(** [create table npi_to_export_to_graph (npi char(10),node_type char(1));] *)
Definition create_table_sql (d : database) : result database :=
  match npi_to_export_to_graph d with
  | Some _ => Raise ProgrammingError
  | None => Ok (set_staging d (Some {| rows := []; idx_primary_npi_graph := false |}))
  end.

(** [insert into npi_to_export_to_graph (npi,node_type) select ...]: the
    selected rows are appended; under the unique index a repeated [npi]
    makes the statement fail and changes nothing. *)
Definition insert_into (d : database) (new : list staged) : result database :=
  with_staging d (λ t,
    let rows' := rows t ++ new in
    if idx_primary_npi_graph t && negb (bool_decide (NoDup (neg_npi <$> rows')))
    then Raise IntegrityError
    else Ok (set_staging d (Some {| rows := rows';
                                    idx_primary_npi_graph := idx_primary_npi_graph t |}))).

(** [create unique index idx_primary_npi_graph on npi_to_export_to_graph(npi);] *)
Definition create_unique_index (d : database) : result database :=
  with_staging d (λ t,
    if bool_decide (NoDup (neg_npi <$> rows t))
    then Ok (set_staging d (Some {| rows := rows t; idx_primary_npi_graph := true |}))
    else Raise IntegrityError).

(** ** The queries of [extract_provider_network]

    Each definition is named after the variable that holds the SQL text.  A
    join is the nested enumeration of its tables, [distinct] and [union]
    remove repeated rows, and the order of a result set is the order of that
    enumeration. *)
Section Queries.

(** How the database evaluates the caller's where clause on a row of the
    detail table. *)
Variable eval_where : string → detail_row → bool.

Definition stage (node_type : string) (npi : string) : staged :=
  {| neg_npi := npi; neg_node_type := node_type |}.

(** [select distinct npi from <referral> rt1 join <detail> tnd1
     on rt1.<from> = tnd1.npi where <where_criteria>] *)
Definition query_first_part (where_criteria : string) (d : database) : list string :=
  remove_dups
    (rt1 ← referral_table d; tnd1 ← npi_detail_table d;
     if decide (field_from_relationship rt1 = tnd_npi tnd1) then
       if eval_where where_criteria tnd1 then [tnd_npi tnd1] else []
     else []).

(** [select distinct npi from <referral> rt2 join <detail> tnd2
     on rt2.<to> = tnd2.npi where <where_criteria>] *)
Definition query_second_part (where_criteria : string) (d : database) : list string :=
  remove_dups
    (rt2 ← referral_table d; tnd2 ← npi_detail_table d;
     if decide (field_to_relationship rt2 = tnd_npi tnd2) then
       if eval_where where_criteria tnd2 then [tnd_npi tnd2] else []
     else []).

(** [insert into npi_to_export_to_graph (npi,node_type)
     select t.*,'C' from (<first> union <second>) t;] *)
Definition core_node_query_to_execute (where_criteria : string) (d : database)
  : result database :=
  insert_into d
    (stage "C" <$> remove_dups (query_first_part where_criteria d
                                ++ query_second_part where_criteria d)).

(** The row of [select * from npi_to_export_to_graph neg join <detail> tnd]. *)
Definition joined (neg : staged) (tnd : detail_row) : Row :=
  {| npi := neg_npi neg;
     columns := ("npi", PyStr (neg_npi neg))
                :: ("node_type", PyStr (neg_node_type neg))
                :: ("npi", PyStr (tnd_npi tnd))
                :: tnd_columns tnd |}.

(** [select * from npi_to_export_to_graph neg join <detail> tnd
     on tnd.npi = neg.npi] *)
Definition npi_detail_query_to_execute (d : database) (t : staging_table) : list Row :=
  neg ← rows t; tnd ← npi_detail_table d;
  if decide (tnd_npi tnd = neg_npi neg) then [joined neg tnd] else [].

(** The identifiers selected by the inner [union] of
    [add_leaf_node_query_to_execute] that pass
    [where npi not in (select npi from npi_to_export_to_graph)]. *)
Definition leaf_npis (d : database) (t : staging_table) : list string :=
  let first :=
    remove_dups
      (neg1 ← rows t; rt1 ← referral_table d;
       if decide (field_to_relationship rt1 = neg_npi neg1)
       then [field_from_relationship rt1] else []) in
  let second :=
    remove_dups
      (neg2 ← rows t; rt2 ← referral_table d;
       if decide (field_from_relationship rt2 = neg_npi neg2)
       then [field_to_relationship rt2] else []) in
  filter (λ npi, npi ∉ neg_npi <$> rows t) (remove_dups (first ++ second)).

(** [insert into npi_to_export_to_graph (npi,node_type) select t.npi,'L' ...] *)
Definition add_leaf_node_query_to_execute (d : database) : result database :=
  with_staging d (λ t, insert_into d (stage "L" <$> leaf_npis d t)).

(** [select * from npi_to_export_to_graph neg join <detail> tnd
     on tnd.npi = neg.npi where neg.node_type = 'L'] *)
Definition populate_leaf_nodes_query_to_execute (d : database) (t : staging_table)
  : list Row :=
  neg ← rows t; tnd ← npi_detail_table d;
  if decide (tnd_npi tnd = neg_npi neg) then
    if decide (neg_node_type neg = "L") then [joined neg tnd] else []
  else [].

(** The select list shared by the three edge queries:
    [rt.<to>, rt.<from>, rt.<weight>, to_node_type, from_node_type]. *)
Definition edge_row (rt : referral_row) (negt negf : staged) : EdgeRow :=
  {| edge0 := field_to_relationship rt;
     edge1 := field_from_relationship rt;
     edge2 := field_weight rt;
     to_node_type := neg_node_type negt;
     from_node_type := neg_node_type negf |}.

(** [... from <referral> rt1 join npi_to_export_to_graph neg1 on rt1.<to> = neg1.npi
     join npi_to_export_to_graph negf on negf.npi = rt1.<from>
     where neg1.node_type = 'C'] *)
Definition query_first_part_edges (d : database) (t : staging_table) : list EdgeRow :=
  rt1 ← referral_table d; neg1 ← rows t;
  if decide (field_to_relationship rt1 = neg_npi neg1) then
    negf ← rows t;
    if decide (neg_npi negf = field_from_relationship rt1) then
      if decide (neg_node_type neg1 = "C") then [edge_row rt1 neg1 negf] else []
    else []
  else [].

(** [... from <referral> rt2 join npi_to_export_to_graph neg2 on rt2.<from> = neg2.npi
     join npi_to_export_to_graph negt on negt.npi = rt2.<to>
     where neg2.node_type = 'C'] *)
Definition query_second_part_edges (d : database) (t : staging_table) : list EdgeRow :=
  rt2 ← referral_table d; neg2 ← rows t;
  if decide (field_from_relationship rt2 = neg_npi neg2) then
    negt ← rows t;
    if decide (neg_npi negt = field_to_relationship rt2) then
      if decide (neg_node_type neg2 = "C") then [edge_row rt2 negt neg2] else []
    else []
  else [].

(** [<query_first_part_edges> union <query_second_part_edges>] *)
Definition add_core_query_to_execute (d : database) (t : staging_table) : list EdgeRow :=
  remove_dups (query_first_part_edges d t ++ query_second_part_edges d t).

(** [... from <referral> rt3 join npi_to_export_to_graph negt3 on rt3.<to> = negt3.npi
     join npi_to_export_to_graph negf3 on rt3.<from> = negf3.npi
     where negt3.node_type = 'L' and negf3.node_type = 'L'] *)
Definition leaf_query_to_execute (d : database) (t : staging_table) : list EdgeRow :=
  rt3 ← referral_table d; negt3 ← rows t;
  if decide (field_to_relationship rt3 = neg_npi negt3) then
    negf3 ← rows t;
    if decide (field_from_relationship rt3 = neg_npi negf3) then
      if decide (neg_node_type negt3 = "L" ∧ neg_node_type negf3 = "L")
      then [edge_row rt3 negt3 negf3] else []
    else []
  else [].

End Queries.

(** ** Output files *)

(** [os.path.join(a, b)] on POSIX paths. *)
Fixpoint ends_with_slash (a : string) : bool :=
  match a with
  | EmptyString => false
  | String c EmptyString => bool_decide (c = "/"%char)
  | String _ a => ends_with_slash a
  end.

Definition os_path_join (a b : string) : string :=
  if String.prefix "/" b then b
  else if bool_decide (a = "") || ends_with_slash a then a +:+ b
  else a +:+ "/" +:+ b.

(** [nx.write_graphml(G, path)] *)
Definition write_graphml (G : nx.graph) (path : string) : M () := λ w,
  (Ok (), {| db := db w; files := <[path := GraphML G]> (files w) |}).

(** [open(path, "wb")]: the file is created, or truncated. *)
Definition open_wb (path : string) : M () := λ w,
  (Ok (), {| db := db w; files := <[path := CSV []]> (files w) |}).

(** [csv.writer(f).writerow(row)] on the file opened at [path]. *)
Definition writerow (path : string) (row : list value) : M () := λ w,
  let written :=
    match files w !! path with
    | Some (CSV written) => written
    | _ => []
    end in
  (Ok (), {| db := db w; files := <[path := CSV (written ++ [row])]> (files w) |}).

(** [header = node_dict.keys(); header.sort()]: strings sort by character
    code. *)
Definition sorted_keys (node_dict : gmap string value) : list string :=
  merge_sort (λ a b : string, String.leb a b) (map_to_list node_dict).*1.

(** The block that writes [<prefix>_edge_list_with_weights.csv]. *)
Definition write_edge_csv (ProviderGraph : nx.graph) (csv_edge_file_name : string) : M () :=
  open_wb csv_edge_file_name;;
  for_each (map_to_list (nx.edge ProviderGraph))
    (λ _ node1,
       for_each (map_to_list node1.2)
         (λ _ node2,
            let npi_from := node1.1 in
            let npi_to := node2.1 in
            let edge_data := node2.2 in
            writerow csv_edge_file_name
              [PyStr npi_from; PyStr npi_to; nx.weight edge_data])
         ())
    ().

(** The block that writes [<prefix>_node_db.csv].  The loop carries the
    locals [i] and [header]; [header] is unassigned until the iteration with
    [i == 0] has run. *)
Definition write_node_row (csv_node_file_name : string)
    (locals : Z * option (list string)) (node : string * gmap string value)
  : M (Z * option (list string)) :=
  let '(i, header) := locals in
  let node_dict := node.2 in
  header ←
    (if decide (i = 0%Z) then
       let header := "node_id" :: sorted_keys node_dict in
       writerow csv_node_file_name (PyStr <$> header);;
       mret (Some header)
     else mret header);
  header ← read_local "header" header;
  let row_to_write :=
    PyStr node.1
    :: ((λ attribute, default (PyStr "") (node_dict !! attribute)) <$> header) in
  writerow csv_node_file_name row_to_write;;
  mret ((i + 1)%Z, Some header).

Definition write_node_csv (ProviderGraph : nx.graph) (csv_node_file_name : string) : M () :=
  open_wb csv_node_file_name;;
  for_each (map_to_list (nx.node ProviderGraph))
    (write_node_row csv_node_file_name) (0%Z, None);;
  mret ().

(** ** The extraction *)
Section Extract.

Variable eval_where : string → detail_row → bool.

(** The [if]/[elif] on [graph_type]: the local [ProviderGraph] is assigned
    in two cases only. *)
Definition new_graph (graph_type : string) : option nx.graph :=
  if decide (graph_type = "directed") then Some nx.DiGraph
  else if decide (graph_type = "undirected") then Some nx.Graph
  else None.

(** [extract_provider_network(where_criteria, file_name_prefix=...,
    add_leaf_to_leaf_edges=..., node_label_name=..., add_leaf_nodes=...,
    graph_type=..., csv_output=..., directory=...)].  The table and field
    names select the tables and columns the [database] record already
    names; console logging is left out. *)
Definition extract_provider_network (where_criteria : string)
    (file_name_prefix : string) (add_leaf_to_leaf_edges : bool)
    (node_label_name : option string) (add_leaf_nodes : bool)
    (graph_type : string) (csv_output : bool) (directory : string) : M () :=
  execute drop_table_sql;;
  execute create_table_sql;;
  execute (core_node_query_to_execute eval_where where_criteria);;
  execute create_unique_index;;
  cursor ← select npi_detail_query_to_execute;
  let ProviderGraph := new_graph graph_type in
  ProviderGraph ← read_local "ProviderGraph" ProviderGraph;
  let ProviderGraph := add_nodes_to_graph cursor ProviderGraph "core" node_label_name in
  ProviderGraph ←
    (if add_leaf_nodes then
       execute add_leaf_node_query_to_execute;;
       cursor ← select populate_leaf_nodes_query_to_execute;
       mret (add_nodes_to_graph cursor ProviderGraph "leaf" node_label_name)
     else mret ProviderGraph);
  cursor ← select add_core_query_to_execute;
  let ProviderGraph := graph_of (add_edges_to_graph cursor ProviderGraph) in
  ProviderGraph ←
    (if add_leaf_to_leaf_edges then
       cursor ← select leaf_query_to_execute;
       mret (graph_of (add_edges_to_graph cursor ProviderGraph))
     else mret ProviderGraph);
  write_graphml ProviderGraph
    (os_path_join directory (file_name_prefix +:+ "_provider_graph.graphml"));;
  if csv_output then
    write_edge_csv ProviderGraph
      (os_path_join directory (file_name_prefix +:+ "_edge_list_with_weights.csv"));;
    write_node_csv ProviderGraph
      (os_path_join directory (file_name_prefix +:+ "_node_db.csv"))
  else mret ().

(** ** The command line *)

(** What the [__main__] block does with [sys.argv]: print the usage text,
    or call [extract_provider_network] with the two positional arguments
    and the two flags, every other parameter at its default. *)
Inductive invocation :=
  | print_usage
  | call_extract (where_criteria file_name_prefix : string)
                 (add_leaf_nodes add_leaf_to_leaf_edges : bool).

(** [sys.argv[i]] *)
Definition sys_argv (argv : list string) (i : nat) : result string :=
  match argv !! i with
  | Some s => Ok s
  | None => Raise IndexError
  end.

Definition main (argv : list string) : result invocation :=
  let number_of_args := length argv in
  if decide (number_of_args = 1) then Ok print_usage
  else if decide (length argv = 3) then
    match sys_argv argv 1, sys_argv argv 2 with
    | Ok where_criteria, Ok file_name_prefix =>
        Ok (call_extract where_criteria file_name_prefix true false)
    | Raise e, _ | _, Raise e => Raise e
    end
  else
    let leaf_nodes :=
      if decide ("no-leaf-nodes" ∈ drop 3 argv) then false else true in
    let leaf_edges :=
      if decide ("leaf-edges" ∈ drop 3 argv) then true else false in
    match sys_argv argv 1, sys_argv argv 2 with
    | Ok where_criteria, Ok file_name_prefix =>
        Ok (call_extract where_criteria file_name_prefix leaf_nodes leaf_edges)
    | Raise e, _ | _, Raise e => Raise e
    end.

(** Carrying out an invocation; the defaults are those of the signature of
    [extract_provider_network]. *)
Definition run (i : result invocation) : M () :=
  match i with
  | Ok print_usage => mret ()
  | Ok (call_extract where_criteria file_name_prefix add_leaf_nodes add_leaf_to_leaf_edges) =>
      extract_provider_network where_criteria file_name_prefix
        add_leaf_to_leaf_edges (Some "provider_name") add_leaf_nodes
        "directed" true "./"
  | Raise e => raise e
  end.

End Extract.

(** ** Specification-side definitions *)



(** How often a category occurs among the rows of one edge-import pass. *)
Definition occurrences (category : string) (cursor : list EdgeRow) : nat :=
  length (filter (λ edge, edge_type edge = category) cursor).

(** The rows the specification gives the edge CSV: one triple per edge. *)
Definition edge_csv_rows (G : nx.graph) : list (list value) :=
  (λ e : string * string * nx.edge_data,
     [PyStr e.1.1; PyStr e.1.2; nx.weight e.2]) <$> nx.edges G.

(** The row the specification gives a node under a header: the node id, then
    for each header column the node's attribute of that name, or the empty
    string. *)
Definition node_csv_row (header : list string) (node : string * gmap string value)
  : list value :=
  PyStr node.1 :: ((λ attribute, default (PyStr "") (node.2 !! attribute)) <$> header).

(** The rows the specification gives the node CSV: nothing for a graph with
    no node, and otherwise the header taken from the first enumerated node,
    then one row per node. *)
Definition node_csv_rows (G : nx.graph) : list (list value) :=
  match nx.nodes G with
  | [] => []
  | first :: _ =>
      let header := "node_id" :: sorted_keys first.2 in
      (PyStr <$> header) :: (node_csv_row header <$> nx.nodes G)
  end.

(** ** The outcome of a run, as functions of the database

    The values the steps of [extract_provider_network] compute, written
    without the monad; the theorems relate the run to them. *)
Section Outcome.

Variable eval_where : string → detail_row → bool.

(** The staging table once the core identifiers are inserted and indexed. *)
Definition core_table (where_criteria : string) (d : database) : staging_table :=
  {| rows := stage "C" <$> remove_dups (query_first_part eval_where where_criteria d
                                        ++ query_second_part eval_where where_criteria d);
     idx_primary_npi_graph := true |}.

(** The staging table at the end of the run. *)
Definition final_table (where_criteria : string) (add_leaf_nodes : bool) (d : database)
  : staging_table :=
  let t := core_table where_criteria d in
  if add_leaf_nodes then
    {| rows := rows t ++ (stage "L" <$> leaf_npis d t); idx_primary_npi_graph := true |}
  else t.

(** The graph at the end of the run, starting from the empty graph [G]. *)
Definition assembled (where_criteria : string) (node_label_name : option string)
    (add_leaf_nodes add_leaf_to_leaf_edges : bool) (G : nx.graph) (d : database)
  : nx.graph :=
  let core := core_table where_criteria d in
  let G := add_nodes_to_graph (npi_detail_query_to_execute d core) G "core" node_label_name in
  let t := final_table where_criteria add_leaf_nodes d in
  let G :=
    if add_leaf_nodes then
      add_nodes_to_graph (populate_leaf_nodes_query_to_execute d t) G "leaf" node_label_name
    else G in
  let G := graph_of (add_edges_to_graph (add_core_query_to_execute d t) G) in
  if add_leaf_to_leaf_edges then
    graph_of (add_edges_to_graph (leaf_query_to_execute d t) G)
  else G.

(** The files at the end of the run. *)
Definition exported (file_name_prefix : string) (csv_output : bool) (directory : string)
    (G : nx.graph) (files : gmap string file) : gmap string file :=
  let files :=
    <[os_path_join directory (file_name_prefix +:+ "_provider_graph.graphml")
      := GraphML G]> files in
  if csv_output then
    <[os_path_join directory (file_name_prefix +:+ "_node_db.csv")
      := CSV (node_csv_rows G)]>
      (<[os_path_join directory (file_name_prefix +:+ "_edge_list_with_weights.csv")
         := CSV (edge_csv_rows G)]> files)
  else files.

(** The identifiers staged under a tier. *)
Definition staged_as (node_type : string) (t : staging_table) : list string :=
  neg_npi <$> filter (λ neg, neg_node_type neg = node_type) (rows t).

End Outcome.

(** The graph a run wrote to the GraphML file at [path]. *)
Definition written_graph (out : result () * world) (path : string) : option nx.graph :=
  match files out.2 !! path with
  | Some (GraphML G) => Some G
  | _ => None
  end.

(** ** Scenarios *)

(** The scenario of the specification: referrals A→B of weight 5, B→A of
    weight 3 and B→C of weight 1, the three providers in the detail table,
    and a where clause that selects exactly A. *)
Definition referral (from_npi to_npi : string) (weight : Z) : referral_row :=
  {| field_from_relationship := from_npi;
     field_to_relationship := to_npi;
     field_weight := PyInt weight |}.

Definition provider (npi name : string) : detail_row :=
  {| tnd_npi := npi; tnd_columns := [("provider_name", PyStr name); ("zip5", PyNone)] |}.

Definition scenario_db : database :=
  {| referral_table := [referral "A" "B" 5; referral "B" "A" 3; referral "B" "C" 1];
     npi_detail_table := [provider "A" "ALPHA"; provider "B" "BETA"; provider "C" "GAMMA"];
     npi_to_export_to_graph := None |}.

Definition scenario_world : world := {| db := scenario_db; files := ∅ |}.

Definition selects_A (where_criteria : string) (tnd : detail_row) : bool :=
  bool_decide (tnd_npi tnd = "A").

Definition scenario_run (add_leaf_to_leaf_edges : bool) : result () * world :=
  extract_provider_network selects_A "npi = 'A'" "scenario" add_leaf_to_leaf_edges
    (Some "provider_name") true "directed" true "./" scenario_world.



(** The scenario with one more referral, C→A of weight 2, which makes C a
    leaf as well. *)
Definition two_leaves_db : database :=
  {| referral_table := referral_table scenario_db ++ [referral "C" "A" 2];
     npi_detail_table := npi_detail_table scenario_db;
     npi_to_export_to_graph := None |}.

Definition two_leaves_run (add_leaf_to_leaf_edges : bool) : result () * world :=
  extract_provider_network selects_A "npi = 'A'" "scenario" add_leaf_to_leaf_edges
    (Some "provider_name") true "directed" true "./"
    {| db := two_leaves_db; files := ∅ |}.

(** ** Reading a graph *)

(** [G[u][v]]: the data of the edge kept under [u] for the neighbour [v]. *)
Definition edge_between (G : nx.graph) (u v : string) : option nx.edge_data :=
  nx.edge G !! u ≫= (.!! v).

(** The dictionaries [G.node] and [G.edge] have the same keys. *)
Definition same_keys (G : nx.graph) : Prop :=
  ∀ n, nx.node G !! n = None ↔ nx.edge G !! n = None.

(** The keyword arguments [add_edges_to_graph] passes to [graph.add_edge]
    for a row. *)
Definition edge_data_of (edge : EdgeRow) : nx.edge_data :=
  {| nx.weight := edge2 edge; nx.edge_type := edge_type edge |}.

(** A row of an edge query names the ordered pair [(u, v)]; for an
    undirected graph the order does not matter. *)
Definition joins (directed : bool) (u v : string) (edge : EdgeRow) : Prop :=
  (edge0 edge = u ∧ edge1 edge = v) ∨
  (directed = false ∧ edge0 edge = v ∧ edge1 edge = u).

#[global] Instance joins_dec directed u v edge : Decision (joins directed u v edge).
Proof. unfold joins. apply _. Defined.

(** A row names [n] as one of its two endpoints. *)
Definition touches (n : string) (edge : EdgeRow) : Prop :=
  edge0 edge = n ∨ edge1 edge = n.

#[global] Instance touches_dec n edge : Decision (touches n edge).
Proof. unfold touches. apply _. Defined.



(** Two rows of an edge query that name the same ordered pair with
    different weights. *)
Definition repeated_rows : list EdgeRow :=
  [ {| edge0 := "B"; edge1 := "A"; edge2 := PyInt 5;
       to_node_type := "L"; from_node_type := "C" |};
    {| edge0 := "B"; edge1 := "A"; edge2 := PyInt 9;
       to_node_type := "L"; from_node_type := "C" |} ].

(** * Theorems *)

Lemma row_to_dictionary_lookup row k :
  row_to_dictionary row true !! k = non_null_column row k.
Proof.
  unfold row_to_dictionary, non_null_column.
  induction (columns row) as [|[c v] cols IH] using rev_ind; [done|].
  rewrite foldl_snoc, omap_app, last_app. simpl.
  destruct (decide (c = k)) as [->|Hne].
  - destruct (is_not_None v); simpl.
    + by rewrite lookup_insert_eq.
    + by rewrite IH.
  - destruct (is_not_None v); simpl; [rewrite lookup_insert_ne by done|]; done.
Qed.

(** C3. The attribute mapping built for a row holds, under every key:
    the tier under [node_type]; under [Label] the value of the label column
    when a label field is given (a non-empty name) and that column is among
    the row's non-null columns; and otherwise exactly the row's non-null
    column of that name, so null and absent columns are left out.  The
    function is total: no row, tier or label makes it fail. *)
Theorem attributes_spec (row : Row) (tier : string) (label : option string) (k : string) :
  attributes row tier label !! k =
    if decide (k = "node_type") then Some (PyStr tier)
    else
      match label with
      | Some l =>
          match non_null_column row l with
          | Some v =>
              if decide (k = "Label" ∧ l ≠ "") then Some v
              else non_null_column row k
          | None => non_null_column row k
          end
      | None => non_null_column row k
      end.
Proof.
  unfold attributes.
  destruct (decide (k = "node_type")) as [->|Hk].
  { by rewrite lookup_insert_eq. }
  rewrite lookup_insert_ne by done.
  destruct label as [l|]; [|apply row_to_dictionary_lookup].
  unfold truthy. rewrite (row_to_dictionary_lookup row l).
  destruct (non_null_column row l) as [v|] eqn:Hl.
  - destruct (decide (l = "")) as [->|Hl'].
    + rewrite decide_False by (by intros [_ ?]). apply row_to_dictionary_lookup.
    + destruct (decide (k = "Label")) as [->|Hk'].
      * rewrite decide_True by done. by rewrite lookup_insert_eq.
      * rewrite decide_False by (by intros [? _]).
        rewrite lookup_insert_ne by done. apply row_to_dictionary_lookup.
  - destruct (decide (l = "")); apply row_to_dictionary_lookup.
Qed.


(** ** Edge classifier *)

(** The four recognised tier pairs, read off the [if]/[elif] chain. *)
Lemma edge_type_table e0 e1 e2 :
  edge_type (Build_EdgeRow e0 e1 e2 "C" "C") = "core-to-core" ∧
  edge_type (Build_EdgeRow e0 e1 e2 "L" "C") = "leaf-to-core" ∧
  edge_type (Build_EdgeRow e0 e1 e2 "C" "L") = "core-to-leaf" ∧
  edge_type (Build_EdgeRow e0 e1 e2 "L" "L") = "leaf-to-leaf".
Proof. done. Qed.




(** ** Category counters *)

Lemma occurrences_snoc c cursor edge :
  occurrences c (cursor ++ [edge]) =
    (occurrences c cursor + if decide (edge_type edge = c) then 1 else 0)%nat.
Proof.
  unfold occurrences. rewrite filter_app, length_app. f_equal.
  rewrite filter_cons, filter_nil. by case_decide.
Qed.

(** C4. After one pass of [add_edges_to_graph] over any sequence of rows the
    counter of a category that never occurred is missing, and the counter of
    a category that occurred is its number of occurrences minus one: the
    first occurrence sets it to zero and only later ones increment it. *)
Theorem counter_dict_spec (cursor : list EdgeRow) (graph : nx.graph) (category : string) :
  counter_dict (add_edges_to_graph cursor graph) !! category =
    if decide (occurrences category cursor = 0%nat) then None
    else Some (Z.of_nat (occurrences category cursor) - 1)%Z.
Proof.
  unfold add_edges_to_graph.
  induction cursor as [|edge cursor IH] using rev_ind; [done|].
  rewrite foldl_snoc, occurrences_snoc.
  set (st := foldl add_edge_row _ cursor) in *.
  unfold add_edge_row; simpl.
  destruct (decide (edge_type edge = category)) as [<-|Hne].
  - rewrite IH.
    destruct (decide (occurrences (edge_type edge) cursor = 0%nat)) as [->|Hocc].
    + by rewrite lookup_insert_eq.
    + rewrite lookup_insert_eq, decide_False by lia. f_equal. lia.
  - rewrite Nat.add_0_r.
    destruct (counter_dict st !! edge_type edge);
      by rewrite lookup_insert_ne.
Qed.

(** ** Monad and file lemmas *)

Lemma writerow_run path row w written :
  files w !! path = Some (CSV written) →
  writerow path row w =
    (Ok (), {| db := db w; files := <[path := CSV (written ++ [row])]> (files w) |}).
Proof. intros H. unfold writerow. by rewrite H. Qed.

Lemma for_each_cons {A S} (x : A) (l : list A) (body : S → A → M S) s w :
  for_each (x :: l) body s w =
    match body s x w with
    | (Ok s', w') => for_each l body s' w'
    | (Raise e, w') => (Raise e, w')
    end.
Proof. done. Qed.

Lemma for_each_writerow {A} path (f : A → list value) (l : list A) w written :
  files w !! path = Some (CSV written) →
  for_each l (λ _ x, writerow path (f x)) () w =
    (Ok (), {| db := db w; files := <[path := CSV (written ++ (f <$> l))]> (files w) |}).
Proof.
  revert w written. induction l as [|x l IH]; intros w written H; simpl.
  - rewrite app_nil_r, insert_id by done. by destruct w.
  - unfold mbind, M_bind. rewrite (writerow_run _ _ _ _ H).
    rewrite (IH _ (written ++ [f x])); simpl.
    + by rewrite insert_insert_eq, <- app_assoc.
    + by rewrite lookup_insert_eq.
Qed.

(** ** Edge CSV *)

Lemma elem_of_edges (G : nx.graph) u v data :
  (u, v, data) ∈ nx.edges G ↔
  ∃ nbrs, nx.edge G !! u = Some nbrs ∧ nbrs !! v = Some data.
Proof.
  unfold nx.edges. rewrite list_elem_of_bind. split.
  - intros [[u' nbrs] [Hin Hu]]. simpl in Hin.
    apply list_elem_of_fmap in Hin as [[v' d'] [Heq Hv]]. simplify_eq/=.
    exists nbrs. split; by apply elem_of_map_to_list.
  - intros (nbrs & Hu & Hv). exists (u, nbrs). split.
    + simpl. apply list_elem_of_fmap. exists (v, data).
      split; [done|]. by apply elem_of_map_to_list.
    + by apply elem_of_map_to_list.
Qed.

Lemma list_fmap_bind {A B C} (f : B → C) (g : A → list B) (l : list A) :
  f <$> (l ≫= g) = l ≫= (λ x, f <$> g x).
Proof.
  induction l as [|x l IH]; [done|]. by rewrite !bind_cons, fmap_app, IH.
Qed.

Lemma NoDup_edges (G : nx.graph) : NoDup (nx.edges G).*1.
Proof.
  unfold nx.edges. rewrite list_fmap_bind.
  apply NoDup_bind.
  - intros [u1 n1] [u2 n2] [u v] H1 H2 Hy1 Hy2. simpl in *.
    apply list_elem_of_fmap in Hy1 as [[[u1' v1'] d1] [Heq1 Hy1]].
    apply list_elem_of_fmap in Hy1 as [[v1 d1'] [Heq1' Hy1]].
    apply list_elem_of_fmap in Hy2 as [[[u2' v2'] d2] [Heq2 Hy2]].
    apply list_elem_of_fmap in Hy2 as [[v2 d2'] [Heq2' Hy2]].
    simplify_eq/=.
    apply elem_of_map_to_list in H1, H2. by simplify_eq.
  - intros [u nbrs] _. simpl.
    rewrite <- list_fmap_compose.
    apply (NoDup_fmap_2_strong _).
    + intros [v1 d1] [v2 d2] H1 H2 Heq. simplify_eq/=.
      apply elem_of_map_to_list in H1, H2. by simplify_eq.
    + apply NoDup_map_to_list.
  - apply NoDup_map_to_list.
Qed.

Lemma write_edge_csv_loop path (outer : list (string * gmap string nx.edge_data)) w written :
  files w !! path = Some (CSV written) →
  for_each outer
    (λ _ node1,
       for_each (map_to_list node1.2)
         (λ _ node2,
            writerow path [PyStr node1.1; PyStr node2.1; nx.weight node2.2]) ())
    () w =
  (Ok (), {| db := db w;
             files := <[path := CSV (written ++
                          ((λ e : string * string * nx.edge_data,
                              [PyStr e.1.1; PyStr e.1.2; nx.weight e.2]) <$>
                           (nbrs ← outer;
                            (λ nb : string * nx.edge_data, (nbrs.1, nb.1, nb.2))
                              <$> map_to_list nbrs.2)))]> (files w) |}).
Proof.
  revert w written. induction outer as [|node1 outer IH]; intros w written H.
  - simpl. rewrite app_nil_r, insert_id by done. by destruct w.
  - rewrite bind_cons, fmap_app, <- list_fmap_compose.
    rewrite for_each_cons.
    rewrite (for_each_writerow path
               (λ node2 : string * nx.edge_data,
                  [PyStr node1.1; PyStr node2.1; nx.weight node2.2]) _ _ _ H).
    erewrite IH by (simpl; apply lookup_insert_eq).
    simpl. by rewrite insert_insert_eq, <- app_assoc.
Qed.

Lemma write_edge_csv_run (G : nx.graph) (path : string) (w : world) :
  write_edge_csv G path w =
    (Ok (), {| db := db w; files := <[path := CSV (edge_csv_rows G)]> (files w) |}).
Proof.
  unfold write_edge_csv, edge_csv_rows, nx.edges.
  unfold mbind at 1, M_bind, open_wb.
  rewrite (write_edge_csv_loop path _ _ []); simpl.
  - by rewrite insert_insert_eq.
  - by rewrite lookup_insert_eq.
Qed.

(** C8. The edge CSV block always succeeds and leaves at its path exactly
    the rows [(from_id, to_id, weight)] of the edges in the order the graph
    enumerates them, with no header row before them.  The edges enumerated
    are the entries [G.edge[u][v]], each ordered pair exactly once (an
    undirected graph keeps an edge under both of its endpoints). *)
Theorem write_edge_csv_spec (G : nx.graph) (path : string) (w : world) :
  write_edge_csv G path w =
    (Ok (), {| db := db w;
               files := <[path := CSV ((λ e : string * string * nx.edge_data,
                                          [PyStr e.1.1; PyStr e.1.2; nx.weight e.2])
                                       <$> nx.edges G)]> (files w) |}) ∧
  (∀ u v data, (u, v, data) ∈ nx.edges G ↔
     ∃ nbrs, nx.edge G !! u = Some nbrs ∧ nbrs !! v = Some data) ∧
  NoDup (nx.edges G).*1.
Proof.
  split_and!.
  - apply write_edge_csv_run.
  - apply elem_of_edges.
  - apply NoDup_edges.
Qed.

(** ** Node CSV *)

#[local] Instance string_leb_total : Total (λ a b : string, Is_true (String.leb a b)).
Proof.
  intros a b. destruct (String.leb_total a b) as [H|H]; rewrite H; [by left|by right].
Qed.





Lemma write_node_row_later path header i node w written :
  i ≠ 0%Z →
  files w !! path = Some (CSV written) →
  write_node_row path (i, Some header) node w =
    (Ok ((i + 1)%Z, Some header),
     {| db := db w;
        files := <[path := CSV (written ++ [node_csv_row header node])]> (files w) |}).
Proof.
  intros Hi H. unfold write_node_row. rewrite decide_False by done.
  unfold read_local, mbind, M_bind, mret, M_ret.
  by rewrite (writerow_run _ _ _ _ H).
Qed.

Lemma write_node_rows_later path header (l : list (string * gmap string value)) i w written :
  (0 < i)%Z →
  files w !! path = Some (CSV written) →
  for_each l (write_node_row path) (i, Some header) w =
    (Ok ((i + Z.of_nat (length l))%Z, Some header),
     {| db := db w;
        files := <[path := CSV (written ++ (node_csv_row header <$> l))]> (files w) |}).
Proof.
  revert i w written. induction l as [|node l IH]; intros i w written Hi H.
  - simpl. rewrite app_nil_r, insert_id, Z.add_0_r by done. by destruct w.
  - rewrite for_each_cons.
    rewrite (write_node_row_later path header i node w written) by (lia || done).
    erewrite IH by (simpl; first [lia | apply lookup_insert_eq]).
    cbn [db files length fmap list_fmap].
    rewrite insert_insert_eq, <- app_assoc, Nat2Z.inj_succ.
    by replace (i + 1 + Z.of_nat (length l))%Z with (i + Z.succ (Z.of_nat (length l)))%Z by lia.
Qed.

Lemma write_node_row_first path node w written :
  files w !! path = Some (CSV written) →
  write_node_row path (0%Z, None) node w =
    let header := "node_id" :: sorted_keys node.2 in
    (Ok (1%Z, Some header),
     {| db := db w;
        files := <[path := CSV (written ++ [PyStr <$> header; node_csv_row header node])]>
                   (files w) |}).
Proof.
  intros H. unfold write_node_row. rewrite decide_True by done.
  unfold read_local, mbind, M_bind, mret, M_ret.
  rewrite (writerow_run _ _ _ _ H). simpl.
  unfold writerow; simpl. rewrite lookup_insert_eq, insert_insert_eq.
  by rewrite <- app_assoc.
Qed.

(** The node CSV block on a graph with no node leaves an empty file. *)
Lemma write_node_csv_empty (G : nx.graph) path w :
  nx.nodes G = [] →
  write_node_csv G path w =
    (Ok (), {| db := db w; files := <[path := CSV []]> (files w) |}).
Proof.
  unfold nx.nodes, write_node_csv. intros ->. done.
Qed.

Lemma write_node_csv_run (G : nx.graph) path w node rest :
  nx.nodes G = node :: rest →
  let header := "node_id" :: sorted_keys node.2 in
  write_node_csv G path w =
    (Ok (), {| db := db w;
               files := <[path := CSV ((PyStr <$> header)
                                       :: (node_csv_row header <$> nx.nodes G))]>
                          (files w) |}).
Proof.
  unfold nx.nodes, write_node_csv. intros ->.
  unfold mbind, M_bind, open_wb.
  rewrite for_each_cons.
  rewrite (write_node_row_first _ _ _ []) by apply lookup_insert_eq.
  cbv beta iota zeta.
  erewrite write_node_rows_later by (simpl; first [lia | apply lookup_insert_eq]).
  cbn [db files]. by rewrite !insert_insert_eq.
Qed.

Lemma write_node_csv_total (G : nx.graph) path w :
  write_node_csv G path w =
    (Ok (), {| db := db w; files := <[path := CSV (node_csv_rows G)]> (files w) |}).
Proof.
  unfold node_csv_rows. destruct (nx.nodes G) as [|first rest] eqn:Hnodes.
  - by apply write_node_csv_empty.
  - rewrite <- Hnodes. by apply (write_node_csv_run G path w first rest).
Qed.

(** ** Running the extraction *)

Lemma bind_run {A B} (m : M A) (k : A → M B) w a w' :
  m w = (Ok a, w') → (m ≫= k) w = k a w'.
Proof. intros H. unfold mbind, M_bind. by rewrite H. Qed.

Lemma execute_run stmt w d' :
  stmt (db w) = Ok d' → execute stmt w = (Ok (), {| db := d'; files := files w |}).
Proof. intros H. unfold execute. by rewrite H. Qed.

Lemma insert_into_run d t new :
  npi_to_export_to_graph d = Some t →
  NoDup (neg_npi <$> rows t ++ new) →
  insert_into d new =
    Ok (set_staging d (Some {| rows := rows t ++ new;
                               idx_primary_npi_graph := idx_primary_npi_graph t |})).
Proof.
  intros Ht Hnodup. unfold insert_into, with_staging. rewrite Ht.
  rewrite bool_decide_eq_true_2 by done. by rewrite andb_false_r.
Qed.

Lemma select_run {A} (query : database → staging_table → list A) w t :
  npi_to_export_to_graph (db w) = Some t →
  select query w = (Ok (query (db w) t), w).
Proof. intros H. unfold select. by rewrite H. Qed.

Lemma fmap_neg_npi_stage node_type (l : list string) :
  neg_npi <$> (stage node_type <$> l) = l.
Proof. induction l as [|x l IH]; [done|]. by rewrite !fmap_cons, IH. Qed.

Section Run.

Context (eval_where : string → detail_row → bool).

Lemma NoDup_core_table where_criteria d :
  NoDup (neg_npi <$> rows (core_table eval_where where_criteria d)).
Proof.
  unfold core_table. simpl. rewrite fmap_neg_npi_stage.
  apply NoDup_remove_dups.
Qed.

Lemma NoDup_leaf_npis d t : NoDup (leaf_npis d t).
Proof. unfold leaf_npis. apply NoDup_filter, NoDup_remove_dups. Qed.

Lemma leaf_npis_not_staged d t npi :
  npi ∈ leaf_npis d t → npi ∉ neg_npi <$> rows t.
Proof. unfold leaf_npis. by intros [? _]%list_elem_of_filter. Qed.

Lemma NoDup_final_table where_criteria add_leaf_nodes d :
  NoDup (neg_npi <$> rows (final_table eval_where where_criteria add_leaf_nodes d)).
Proof.
  unfold final_table. destruct add_leaf_nodes; [|apply NoDup_core_table].
  simpl. rewrite fmap_app. apply NoDup_app. split_and!.
  - apply NoDup_core_table.
  - intros npi Hcore Hleaf. rewrite fmap_neg_npi_stage in Hleaf.
    by apply leaf_npis_not_staged in Hleaf.
  - rewrite fmap_neg_npi_stage. apply NoDup_leaf_npis.
Qed.

(** The four statements that rebuild the staging table always succeed and
    leave the indexed core table. *)
Lemma staging_run {B} where_criteria (k : M B) w :
  (execute drop_table_sql;; execute create_table_sql;;
   execute (core_node_query_to_execute eval_where where_criteria);;
   execute create_unique_index;; k) w =
  k {| db := set_staging (db w) (Some (core_table eval_where where_criteria (db w)));
       files := files w |}.
Proof.
  erewrite bind_run by (by apply execute_run).
  erewrite bind_run by (by apply execute_run).
  erewrite bind_run by (by apply execute_run).
  erewrite bind_run.
  2:{ apply execute_run. simpl. unfold create_unique_index, with_staging. simpl.
      rewrite bool_decide_eq_true_2; [done|].
      apply (NoDup_core_table where_criteria (db w)). }
  done.
Qed.

Lemma extract_unbound where_criteria file_name_prefix add_leaf_to_leaf_edges
    node_label_name add_leaf_nodes graph_type csv_output directory w :
  new_graph graph_type = None →
  extract_provider_network eval_where where_criteria file_name_prefix
    add_leaf_to_leaf_edges node_label_name add_leaf_nodes graph_type
    csv_output directory w =
  (Raise (UnboundLocalError "ProviderGraph"),
   {| db := set_staging (db w) (Some (core_table eval_where where_criteria (db w)));
      files := files w |}).
Proof.
  intros Hgraph. unfold extract_provider_network. rewrite staging_run.
  erewrite bind_run by (by apply select_run).
  rewrite Hgraph. done.
Qed.

Lemma extract_run where_criteria file_name_prefix add_leaf_to_leaf_edges
    node_label_name add_leaf_nodes graph_type csv_output directory w G :
  new_graph graph_type = Some G →
  extract_provider_network eval_where where_criteria file_name_prefix
    add_leaf_to_leaf_edges node_label_name add_leaf_nodes graph_type
    csv_output directory w =
  (Ok (),
   {| db := set_staging (db w)
              (Some (final_table eval_where where_criteria add_leaf_nodes (db w)));
      files := exported file_name_prefix csv_output directory
                 (assembled eval_where where_criteria node_label_name
                    add_leaf_nodes add_leaf_to_leaf_edges G (db w))
                 (files w) |}).
Proof.
  intros Hgraph. unfold extract_provider_network. rewrite staging_run.
  erewrite bind_run by (by apply select_run).
  rewrite Hgraph.
  erewrite bind_run by done.
  destruct add_leaf_nodes.
  - erewrite bind_run.
    2:{ erewrite bind_run.
        2:{ apply execute_run. simpl.
            unfold add_leaf_node_query_to_execute, with_staging; simpl.
            apply insert_into_run; [done|].
            apply (NoDup_final_table where_criteria true (db w)). }
        erewrite bind_run by (by apply select_run). done. }
    erewrite bind_run by (by apply select_run).
    destruct add_leaf_to_leaf_edges.
    + erewrite bind_run.
      2:{ erewrite bind_run by (by apply select_run). done. }
      erewrite bind_run by done.
      destruct csv_output; [|done].
      erewrite bind_run by apply write_edge_csv_run.
      by rewrite write_node_csv_total.
    + erewrite bind_run by done.
      erewrite bind_run by done.
      destruct csv_output; [|done].
      erewrite bind_run by apply write_edge_csv_run.
      by rewrite write_node_csv_total.
  - erewrite bind_run by done.
    erewrite bind_run by (by apply select_run).
    destruct add_leaf_to_leaf_edges.
    + erewrite bind_run.
      2:{ erewrite bind_run by (by apply select_run). done. }
      erewrite bind_run by done.
      destruct csv_output; [|done].
      erewrite bind_run by apply write_edge_csv_run.
      by rewrite write_node_csv_total.
    + erewrite bind_run by done.
      erewrite bind_run by done.
      destruct csv_output; [|done].
      erewrite bind_run by apply write_edge_csv_run.
      by rewrite write_node_csv_total.
Qed.

End Run.

(** ** Node CSV: header and rows *)





(** ** The command line *)

(** C9, as stated, fails for one argument count: with the predicate alone
    the block raises [IndexError] on [sys.argv[2]] and never calls
    [extract_provider_network]. *)
Lemma main_predicate_only :
  main ["extract_providers_to_graphml.py"; "npi = 'A'"] = Raise IndexError ∧
  ¬ ∃ where_criteria file_name_prefix add_leaf_nodes add_leaf_to_leaf_edges,
      main ["extract_providers_to_graphml.py"; "npi = 'A'"] =
        Ok (call_extract where_criteria file_name_prefix
              add_leaf_nodes add_leaf_to_leaf_edges).
Proof. split; [done|]. by intros (? & ? & ? & ? & ?). Qed.

(** C9, amended.  With the script name alone the block prints the usage
    text and runs nothing, so the world is left as it was; with the
    predicate and the prefix it runs with leaf nodes and without
    leaf-to-leaf edges; and with further arguments after the prefix it runs
    with leaf nodes unless [no-leaf-nodes] is among them and without
    leaf-to-leaf edges unless [leaf-edges] is among them. *)
Theorem main_spec (eval_where : string → detail_row → bool)
    (script where_criteria file_name_prefix : string) (flags : list string) (w : world) :
  main [script] = Ok print_usage ∧
  run eval_where (main [script]) w = (Ok (), w) ∧
  main [script; where_criteria; file_name_prefix] =
    Ok (call_extract where_criteria file_name_prefix true false) ∧
  main (script :: where_criteria :: file_name_prefix :: flags) =
    Ok (call_extract where_criteria file_name_prefix
          (bool_decide ("no-leaf-nodes" ∉ flags))
          (bool_decide ("leaf-edges" ∈ flags))) ∧
  run eval_where (main (script :: where_criteria :: file_name_prefix :: flags)) =
    extract_provider_network eval_where where_criteria file_name_prefix
      (bool_decide ("leaf-edges" ∈ flags)) (Some "provider_name")
      (bool_decide ("no-leaf-nodes" ∉ flags)) "directed" true "./".
Proof.
  assert (main (script :: where_criteria :: file_name_prefix :: flags) =
    Ok (call_extract where_criteria file_name_prefix
          (bool_decide ("no-leaf-nodes" ∉ flags))
          (bool_decide ("leaf-edges" ∈ flags)))) as Hmain.
  { unfold main. simpl. destruct flags as [|flag flags]; simpl.
    - done.
    - repeat case_decide; repeat case_bool_decide; done. }
  split_and!; [done | done | done | done |].
  by rewrite Hmain.
Qed.

(** ** Properties of a run *)

Lemma new_graph_Some graph_type :
  graph_type = "directed" ∨ graph_type = "undirected" →
  new_graph graph_type =
    Some (if decide (graph_type = "directed") then nx.DiGraph else nx.Graph).
Proof. unfold new_graph. intros [->| ->]; done. Qed.




Lemma NoDup_fmap_eq {A B} (f : A → B) (l : list A) x y :
  NoDup (f <$> l) → x ∈ l → y ∈ l → f x = f y → x = y.
Proof.
  induction l as [|z l IH]; [by intros _ ?%elem_of_nil|].
  rewrite fmap_cons, NoDup_cons, !elem_of_cons.
  intros [Hz Hl] [->|Hx] [->|Hy] Hf; [done| | |by apply IH].
  - destruct Hz. rewrite Hf. by apply list_elem_of_fmap_2.
  - destruct Hz. rewrite <- Hf. by apply list_elem_of_fmap_2.
Qed.

Lemma elem_of_staged_as node_type t npi :
  npi ∈ staged_as node_type t ↔ stage node_type npi ∈ rows t.
Proof.
  unfold staged_as. rewrite list_elem_of_fmap. split.
  - intros [[n ty] [-> [Hty Hin]%list_elem_of_filter]]. simpl in *. by subst.
  - intros Hin. exists (stage node_type npi). split; [done|].
    by apply list_elem_of_filter.
Qed.

Lemma staged_exclusive t npi :
  NoDup (neg_npi <$> rows t) → npi ∈ staged_as "C" t → npi ∉ staged_as "L" t.
Proof.
  rewrite !elem_of_staged_as. intros Hnodup HC HL.
  by pose proof (NoDup_fmap_eq neg_npi _ _ _ Hnodup HC HL eq_refl).
Qed.

Section Tiers.

Context (eval_where : string → detail_row → bool).

Lemma final_table_tiers where_criteria add_leaf_nodes d neg :
  neg ∈ rows (final_table eval_where where_criteria add_leaf_nodes d) →
  neg_node_type neg = "C" ∨ neg_node_type neg = "L".
Proof.
  unfold final_table, core_table.
  destruct add_leaf_nodes; simpl; rewrite ?elem_of_app, !list_elem_of_fmap.
  - intros [[? [-> _]]|[? [-> _]]]; [by left|by right].
  - intros [? [-> _]]. by left.
Qed.

(** C5. Whatever the arguments and the database, a run never trips over
    the unique index of the staging table, and the table it leaves behind
    tags every identifier with exactly one of the tiers C (core) and L
    (leaf): each identifier is staged once, so none is both core and leaf.
    The identifiers the leaf computation selects exclude every identifier
    already staged, that is every core identifier. *)
Theorem staged_tiers (where_criteria file_name_prefix : string)
    (add_leaf_to_leaf_edges : bool) (node_label_name : option string)
    (add_leaf_nodes : bool) (graph_type : string) (csv_output : bool)
    (directory : string) (w : world) :
  let out :=
    extract_provider_network eval_where where_criteria file_name_prefix
      add_leaf_to_leaf_edges node_label_name add_leaf_nodes graph_type
      csv_output directory w in
  let core := core_table eval_where where_criteria (db w) in
  out.1 ≠ Raise IntegrityError ∧
  (∀ npi, npi ∈ leaf_npis (db w) core → npi ∉ staged_as "C" core) ∧
  ∃ t, npi_to_export_to_graph (db out.2) = Some t ∧
       NoDup (neg_npi <$> rows t) ∧
       (∀ neg, neg ∈ rows t → neg_node_type neg = "C" ∨ neg_node_type neg = "L") ∧
       (∀ npi, npi ∈ staged_as "C" t → npi ∉ staged_as "L" t) ∧
       (∀ npi, npi ∈ staged_as "L" t → npi ∉ staged_as "C" t).
Proof.
  intros out core.
  assert (∀ t, NoDup (neg_npi <$> rows t) →
               (∀ npi, npi ∈ staged_as "C" t → npi ∉ staged_as "L" t) ∧
               (∀ npi, npi ∈ staged_as "L" t → npi ∉ staged_as "C" t)) as Hexcl.
  { intros t Ht. split; intros npi H1 H2; by eapply staged_exclusive. }
  split_and!.
  - unfold out. destruct (new_graph graph_type) as [G|] eqn:HG.
    + by erewrite extract_run.
    + by erewrite extract_unbound.
  - intros npi Hleaf HC%elem_of_staged_as.
    apply leaf_npis_not_staged in Hleaf. apply Hleaf.
    by apply (list_elem_of_fmap_2 neg_npi) in HC.
  - unfold out. destruct (new_graph graph_type) as [G|] eqn:HG.
    + erewrite extract_run by done. eexists. split; [done|].
      pose proof (NoDup_final_table eval_where where_criteria add_leaf_nodes (db w)).
      split_and!; [done | apply final_table_tiers | by apply Hexcl..].
    + erewrite extract_unbound by done. eexists. split; [done|].
      pose proof (NoDup_final_table eval_where where_criteria false (db w)) as Hnd.
      split_and!; [done | apply (final_table_tiers _ false) | by apply Hexcl..].
Qed.

End Tiers.

Lemma bind_nil_all {A B} (f : A → list B) (l : list A) :
  (∀ x, x ∈ l → f x = []) → l ≫= f = [].
Proof.
  induction l as [|x l IH]; [done|]. intros H.
  rewrite bind_cons, H, IH; [done | | apply list_elem_of_here].
  intros y Hy. apply H. by apply list_elem_of_further.
Qed.

Section Empty.

Context (eval_where : string → detail_row → bool).

Lemma core_table_empty where_criteria d :
  (∀ tnd, tnd ∈ npi_detail_table d → eval_where where_criteria tnd = false) →
  core_table eval_where where_criteria d = {| rows := []; idx_primary_npi_graph := true |}.
Proof.
  intros Hwhere. unfold core_table, query_first_part, query_second_part.
  rewrite !bind_nil_all; [done|..].
  - intros rt _. apply bind_nil_all. intros tnd Htnd.
    rewrite (Hwhere _ Htnd). by case_decide.
  - intros rt _. apply bind_nil_all. intros tnd Htnd.
    rewrite (Hwhere _ Htnd). by case_decide.
Qed.

Lemma edge_queries_empty d t :
  rows t = [] →
  add_core_query_to_execute d t = [] ∧ leaf_query_to_execute d t = [].
Proof.
  intros Hrows.
  unfold add_core_query_to_execute, query_first_part_edges,
    query_second_part_edges, leaf_query_to_execute.
  rewrite Hrows. rewrite !bind_nil_all; done.
Qed.

Lemma assembled_empty where_criteria node_label_name add_leaf_nodes
    add_leaf_to_leaf_edges G d :
  (∀ tnd, tnd ∈ npi_detail_table d → eval_where where_criteria tnd = false) →
  final_table eval_where where_criteria add_leaf_nodes d
    = {| rows := []; idx_primary_npi_graph := true |} ∧
  assembled eval_where where_criteria node_label_name add_leaf_nodes
    add_leaf_to_leaf_edges G d = G.
Proof.
  intros Hwhere.
  assert (final_table eval_where where_criteria add_leaf_nodes d
          = {| rows := []; idx_primary_npi_graph := true |}) as Hfinal.
  { unfold final_table. rewrite (core_table_empty _ _ Hwhere).
    by destruct add_leaf_nodes. }
  split; [done|].
  unfold assembled. rewrite Hfinal, (core_table_empty _ _ Hwhere).
  destruct (edge_queries_empty d {| rows := []; idx_primary_npi_graph := true |} eq_refl)
    as [-> ->].
  by destruct add_leaf_nodes, add_leaf_to_leaf_edges.
Qed.

(** C6. When the where clause matches no row of the detail table, a run
    with a supported graph type returns without raising; it stages no
    identifier, core or leaf, whether or not leaf nodes are asked for; the
    graph it writes to the GraphML file is the empty graph, with no node
    and no edge; and the two CSV files, when asked for, are written empty. *)
Theorem empty_selection (where_criteria file_name_prefix : string)
    (add_leaf_to_leaf_edges : bool) (node_label_name : option string)
    (add_leaf_nodes : bool) (graph_type : string) (csv_output : bool)
    (directory : string) (w : world) :
  (∀ tnd, tnd ∈ npi_detail_table (db w) → eval_where where_criteria tnd = false) →
  graph_type = "directed" ∨ graph_type = "undirected" →
  let G := if decide (graph_type = "directed") then nx.DiGraph else nx.Graph in
  let graphml := os_path_join directory (file_name_prefix +:+ "_provider_graph.graphml") in
  let edge_csv := os_path_join directory (file_name_prefix +:+ "_edge_list_with_weights.csv") in
  let node_csv := os_path_join directory (file_name_prefix +:+ "_node_db.csv") in
  let empty := {| rows := []; idx_primary_npi_graph := true |} in
  extract_provider_network eval_where where_criteria file_name_prefix
    add_leaf_to_leaf_edges node_label_name add_leaf_nodes graph_type
    csv_output directory w =
    (Ok (),
     {| db := set_staging (db w) (Some empty);
        files :=
          if csv_output then
            <[node_csv := CSV []]>
              (<[edge_csv := CSV []]> (<[graphml := GraphML G]> (files w)))
          else <[graphml := GraphML G]> (files w) |}) ∧
  staged_as "C" empty = [] ∧ staged_as "L" empty = [] ∧
  nx.nodes G = [] ∧ nx.edges G = [].
Proof.
  intros Hwhere Hgt G graphml edge_csv node_csv empty.
  split; [|by destruct (decide (graph_type = "directed"))].
  rewrite (extract_run _ _ _ _ _ _ _ _ _ _ G) by (by apply new_graph_Some).
  destruct (assembled_empty where_criteria node_label_name add_leaf_nodes
              add_leaf_to_leaf_edges G (db w) Hwhere) as [-> ->].
  unfold exported.
  assert (node_csv_rows G = [] ∧ edge_csv_rows G = []) as [-> ->]
    by (by destruct (decide (graph_type = "directed"))).
  done.
Qed.

End Empty.

Lemma empty_selection_witness :
  (∀ tnd, tnd ∈ npi_detail_table (db scenario_world) →
          (λ _ _, false) "npi = 'Z'" tnd = false) ∧
  ("directed" = "directed" ∨ "directed" = "undirected") ∧
  (extract_provider_network (λ _ _, false) "npi = 'Z'" "none" true
     (Some "provider_name") true "directed" true "./" scenario_world).1 = Ok ().
Proof.
  assert (∀ tnd, tnd ∈ npi_detail_table (db scenario_world) →
          (λ (_ : string) (_ : detail_row), false) "npi = 'Z'" tnd = false)
    as Hwhere by done.
  split; [exact Hwhere|]. split; [by left|].
  by rewrite (proj1 (empty_selection (λ _ _, false) "npi = 'Z'" "none" true
             (Some "provider_name") true "directed" true "./" scenario_world
             Hwhere (or_introl eq_refl))).
Defined.

(** ** The scenario of the specification *)

Section Scenario.

Context (eval_where : string → detail_row → bool) (where_criteria : string).
Hypothesis selects :
  ∀ tnd, eval_where where_criteria tnd = bool_decide (tnd_npi tnd = "A").





End Scenario.



(** When both endpoints of a referral are leaves, its edge is exported only
    with leaf-to-leaf edge export enabled: with C→A added to the scenario,
    the referral B→C becomes the edge (C, B) of weight 1 and category
    leaf-to-leaf. *)
Lemma leaf_to_leaf_gate :
  let BC := ("C", "B", {| nx.weight := PyInt 1; nx.edge_type := "leaf-to-leaf" |}) in
  (∃ edges, nx.edges <$> written_graph (two_leaves_run false)
                           "./scenario_provider_graph.graphml" = Some edges ∧
            BC ∉ edges) ∧
  (∃ edges, nx.edges <$> written_graph (two_leaves_run true)
                           "./scenario_provider_graph.graphml" = Some edges ∧
            BC ∈ edges).
Proof.
  split; eexists; (split; [by vm_compute|]).
  - rewrite !not_elem_of_cons. split_and!; first [done | apply not_elem_of_nil].
  - rewrite !elem_of_cons. tauto.
Qed.

(** * Further properties *)

(** ** The graph under [add_node] and [add_edge] *)


Lemma add_node_directed n attr_dict G :
  nx.directed (nx.add_node n attr_dict G) = nx.directed G.
Proof. unfold nx.add_node. by destruct (nx.node G !! n). Qed.

Lemma add_node_same_keys n attr_dict G :
  same_keys G → same_keys (nx.add_node n attr_dict G).
Proof.
  intros Hwf m. unfold nx.add_node.
  destruct (nx.node G !! n) as [old|] eqn:Hn; simpl.
  - destruct (decide (n = m)) as [->|Hne].
    + rewrite lookup_insert_eq. split; [done|].
      intros He. apply Hwf in He. congruence.
    + rewrite lookup_insert_ne by done. apply Hwf.
  - destruct (decide (n = m)) as [->|Hne].
    + by rewrite !lookup_insert_eq.
    + rewrite !lookup_insert_ne by done. apply Hwf.
Qed.

Lemma add_node_lookup n attr_dict G m :
  nx.node (nx.add_node n attr_dict G) !! m =
    if decide (n = m) then Some (attr_dict ∪ default ∅ (nx.node G !! n))
    else nx.node G !! m.
Proof.
  unfold nx.add_node. destruct (nx.node G !! n) as [old|] eqn:Hn; simpl.
  - by rewrite lookup_insert.
  - rewrite lookup_insert. case_decide; [|done]. by rewrite (right_id_L ∅ (∪)).
Qed.

Lemma add_node_edge_between n attr_dict G u v :
  same_keys G → edge_between (nx.add_node n attr_dict G) u v = edge_between G u v.
Proof.
  intros Hwf. unfold edge_between, nx.add_node.
  destruct (nx.node G !! n) as [old|] eqn:Hn; simpl; [done|].
  apply Hwf in Hn.
  destruct (decide (n = u)) as [->|Hne].
  - by rewrite lookup_insert_eq, Hn.
  - by rewrite lookup_insert_ne.
Qed.

Lemma touch_directed n G : nx.directed (nx.touch n G) = nx.directed G.
Proof. unfold nx.touch. by destruct (nx.node G !! n). Qed.

Lemma touch_same_keys n G : same_keys G → same_keys (nx.touch n G).
Proof.
  intros Hwf m. unfold nx.touch.
  destruct (nx.node G !! n) as [old|] eqn:Hn; simpl; [apply Hwf|].
  destruct (decide (n = m)) as [->|Hne].
  - by rewrite !lookup_insert_eq.
  - rewrite !lookup_insert_ne by done. apply Hwf.
Qed.

Lemma touch_lookup n G m :
  nx.node (nx.touch n G) !! m =
    match nx.node G !! m with
    | Some a => Some a
    | None => if decide (n = m) then Some ∅ else None
    end.
Proof.
  unfold nx.touch. destruct (nx.node G !! n) as [old|] eqn:Hn; simpl.
  - destruct (decide (n = m)) as [->|Hne].
    + by rewrite Hn.
    + by destruct (nx.node G !! m).
  - destruct (decide (n = m)) as [->|Hne].
    + by rewrite lookup_insert_eq, Hn.
    + rewrite lookup_insert_ne by done. by destruct (nx.node G !! m).
Qed.

Lemma touch_edge_between n G u v :
  same_keys G → edge_between (nx.touch n G) u v = edge_between G u v.
Proof.
  intros Hwf. unfold edge_between, nx.touch.
  destruct (nx.node G !! n) as [old|] eqn:Hn; simpl; [done|].
  apply Hwf in Hn.
  destruct (decide (n = u)) as [->|Hne].
  - by rewrite lookup_insert_eq, Hn.
  - by rewrite lookup_insert_ne.
Qed.

Lemma set_edge_between u v data G u' v' :
  edge_between (nx.set_edge u v data G) u' v' =
    if decide (u = u' ∧ v = v') then Some data else edge_between G u' v'.
Proof.
  unfold edge_between, nx.set_edge. simpl.
  destruct (decide (u = u')) as [->|Hu].
  - rewrite lookup_insert_eq. simpl.
    destruct (decide (v = v')) as [->|Hv].
    + rewrite lookup_insert_eq. by rewrite decide_True.
    + rewrite lookup_insert_ne by done. rewrite decide_False by (by intros [_ ?]).
      by destruct (nx.edge G !! u').
  - rewrite lookup_insert_ne by done. by rewrite decide_False by (by intros [? _]).
Qed.

Lemma set_edge_same_keys u v data G :
  is_Some (nx.node G !! u) → same_keys G → same_keys (nx.set_edge u v data G).
Proof.
  intros [a Hu] Hwf m. unfold nx.set_edge. simpl.
  destruct (decide (u = m)) as [->|Hne].
  - rewrite lookup_insert_eq, Hu. split; done.
  - rewrite lookup_insert_ne by done. apply Hwf.
Qed.

Lemma add_edge_directed u v data G :
  nx.directed (nx.add_edge u v data G) = nx.directed G.
Proof.
  unfold nx.add_edge. simpl.
  destruct (nx.directed (nx.touch v (nx.touch u G))); simpl;
    by rewrite !touch_directed.
Qed.

Lemma add_edge_lookup u v data G n :
  nx.node (nx.add_edge u v data G) !! n =
    match nx.node G !! n with
    | Some a => Some a
    | None => if decide (u = n ∨ v = n) then Some ∅ else None
    end.
Proof.
  assert (nx.node (nx.add_edge u v data G) = nx.node (nx.touch v (nx.touch u G))) as ->.
  { unfold nx.add_edge. simpl. by destruct (nx.directed _). }
  rewrite !touch_lookup.
  destruct (nx.node G !! n); [done|].
  repeat case_decide; first [done | exfalso; intuition].
Qed.

Lemma add_edge_same_keys u v data G :
  same_keys G → same_keys (nx.add_edge u v data G).
Proof.
  intros Hwf.
  assert (is_Some (nx.node (nx.touch v (nx.touch u G)) !! u)) as Hu.
  { rewrite !touch_lookup. destruct (nx.node G !! u); [by eexists|].
    rewrite decide_True by done. by destruct (decide (v = u)); eexists. }
  assert (is_Some (nx.node (nx.touch v (nx.touch u G)) !! v)) as Hv.
  { rewrite touch_lookup. destruct (nx.node (nx.touch u G) !! v); [by eexists|].
    rewrite decide_True by done. by eexists. }
  unfold nx.add_edge. simpl.
  destruct (nx.directed _).
  - by apply set_edge_same_keys, touch_same_keys, touch_same_keys.
  - apply set_edge_same_keys; [done|].
    by apply set_edge_same_keys, touch_same_keys, touch_same_keys.
Qed.

Lemma add_edge_between u v data G u' v' :
  same_keys G →
  edge_between (nx.add_edge u v data G) u' v' =
    if decide ((u = u' ∧ v = v') ∨ (nx.directed G = false ∧ u = v' ∧ v = u'))
    then Some data else edge_between G u' v'.
Proof.
  intros Hwf. unfold nx.add_edge. simpl. rewrite !touch_directed.
  destruct (nx.directed G) eqn:Hd.
  - rewrite set_edge_between, !touch_edge_between by (by try apply touch_same_keys).
    repeat case_decide; first [done | exfalso; intuition congruence].
  - rewrite !set_edge_between, !touch_edge_between by (by try apply touch_same_keys).
    repeat case_decide; first [done | exfalso; intuition congruence].
Qed.

(** ** [add_nodes_to_graph] *)

Lemma add_nodes_to_graph_snoc cursor node G node_type label_name :
  add_nodes_to_graph (cursor ++ [node]) G node_type label_name =
    nx.add_node (npi node) (attributes node node_type label_name)
      (add_nodes_to_graph cursor G node_type label_name).
Proof. unfold add_nodes_to_graph. by rewrite foldl_snoc. Qed.

Lemma add_nodes_to_graph_keeps cursor G node_type label_name :
  same_keys G →
  same_keys (add_nodes_to_graph cursor G node_type label_name) ∧
  nx.directed (add_nodes_to_graph cursor G node_type label_name) = nx.directed G ∧
  ∀ u v, edge_between (add_nodes_to_graph cursor G node_type label_name) u v
         = edge_between G u v.
Proof.
  intros Hwf. induction cursor as [|node cursor IH] using rev_ind; [done|].
  destruct IH as (IHwf & IHd & IHe). rewrite add_nodes_to_graph_snoc.
  split_and!.
  - by apply add_node_same_keys.
  - by rewrite add_node_directed.
  - intros u v. by rewrite add_node_edge_between, IHe.
Qed.

Lemma attributes_node_type node node_type label_name :
  attributes node node_type label_name !! "node_type" = Some (PyStr node_type).
Proof. unfold attributes. apply lookup_insert_eq. Qed.

(** X3. After [add_nodes_to_graph] a node that no row names has the
    attributes it had; a node that some row names exists, its [node_type] is
    the tier of the call, it holds every attribute of the last row that
    names it, and it has lost none of the attribute names it had before. *)
Theorem add_nodes_to_graph_nodes (cursor : list Row) (G : nx.graph)
    (node_type : string) (label_name : option string) (n : string) :
  let G' := add_nodes_to_graph cursor G node_type label_name in
  (n ∉ npi <$> cursor → nx.node G' !! n = nx.node G !! n) ∧
  (n ∈ npi <$> cursor →
   ∃ a, nx.node G' !! n = Some a ∧
        a !! "node_type" = Some (PyStr node_type) ∧
        (∀ node, last (filter (λ node, npi node = n) cursor) = Some node →
                 ∀ k v, attributes node node_type label_name !! k = Some v →
                        a !! k = Some v) ∧
        (∀ old k, nx.node G !! n = Some old → is_Some (old !! k) → is_Some (a !! k))).
Proof.
  induction cursor as [|node cursor IH] using rev_ind.
  { split; [done|]. by intros ?%elem_of_nil. }
  destruct IH as [IHout IHin]. cbv zeta.
  rewrite add_nodes_to_graph_snoc, fmap_app, add_node_lookup. simpl.
  split.
  - rewrite not_elem_of_app, list_elem_of_singleton. intros [Hcursor Hnode].
    rewrite decide_False by done. by apply IHout.
  - intros Hmem. rewrite filter_app, filter_cons, filter_nil.
    destruct (decide (npi node = n)) as [<-|Hne].
    + eexists. split; [done|]. split_and!.
      * apply lookup_union_Some_l, attributes_node_type.
      * rewrite last_snoc. intros ? [= <-] k v Hk. by apply lookup_union_Some_l.
      * intros old k Hold [v Hk].
        destruct (decide (npi node ∈ npi <$> cursor)) as [Hin|Hout].
        -- destruct (IHin Hin) as (a & -> & _ & _ & Hkeep). simpl.
           destruct (Hkeep old k Hold (ex_intro _ v Hk)) as [v' Hv'].
           apply lookup_union_is_Some. right. by eexists.
        -- rewrite (IHout Hout), Hold. simpl.
           apply lookup_union_is_Some. right. by eexists.
    + rewrite app_nil_r.
      apply elem_of_app in Hmem as [Hin|Hin%list_elem_of_singleton]; [|done].
      by apply IHin.
Qed.

(** ** [add_edges_to_graph] *)

Lemma add_edges_to_graph_snoc cursor edge G :
  graph_of (add_edges_to_graph (cursor ++ [edge]) G) =
    nx.add_edge (edge0 edge) (edge1 edge) (edge_data_of edge)
      (graph_of (add_edges_to_graph cursor G)).
Proof. unfold add_edges_to_graph. by rewrite foldl_snoc. Qed.

Lemma add_edges_to_graph_keeps cursor G :
  same_keys G →
  same_keys (graph_of (add_edges_to_graph cursor G)) ∧
  nx.directed (graph_of (add_edges_to_graph cursor G)) = nx.directed G.
Proof.
  intros Hwf. induction cursor as [|edge cursor IH] using rev_ind; [done|].
  destruct IH as [IHwf IHd]. rewrite add_edges_to_graph_snoc. split.
  - by apply add_edge_same_keys.
  - by rewrite add_edge_directed.
Qed.

Lemma add_edges_to_graph_between (cursor : list EdgeRow) (G : nx.graph) (u v : string) :
  same_keys G →
  edge_between (graph_of (add_edges_to_graph cursor G)) u v =
    match last (filter (joins (nx.directed G) u v) cursor) with
    | Some edge => Some (edge_data_of edge)
    | None => edge_between G u v
    end.
Proof.
  intros Hwf. induction cursor as [|edge cursor IH] using rev_ind; [done|].
  destruct (add_edges_to_graph_keeps cursor G Hwf) as [Hwf' Hd].
  rewrite add_edges_to_graph_snoc, add_edge_between, Hd by done.
  rewrite filter_app, filter_cons, filter_nil.
  destruct (decide (joins (nx.directed G) u v edge)) as [Hj|Hj].
  - rewrite last_snoc. unfold joins in Hj. by case_decide.
  - rewrite app_nil_r, IH. unfold joins in Hj. by case_decide.
Qed.

Lemma elem_of_edges_between (G : nx.graph) u v data :
  (u, v, data) ∈ nx.edges G ↔ edge_between G u v = Some data.
Proof.
  rewrite elem_of_edges. unfold edge_between. split.
  - intros (nbrs & -> & Hv). done.
  - destruct (nx.edge G !! u) as [nbrs|]; [|done]. intros Hv. by exists nbrs.
Qed.

(** X4. Last write wins: after [add_edges_to_graph] on a graph whose node
    and edge dictionaries have the same keys, the edge enumerated for the
    ordered pair [(u, v)] carries the weight and category of the last row
    naming that pair (in either order when the graph is undirected), and is
    the edge the graph had when no row names the pair. *)
Theorem add_edges_to_graph_last (cursor : list EdgeRow) (G : nx.graph)
    (u v : string) (data : nx.edge_data) :
  same_keys G →
  (u, v, data) ∈ nx.edges (graph_of (add_edges_to_graph cursor G)) ↔
    match last (filter (joins (nx.directed G) u v) cursor) with
    | Some edge => data = edge_data_of edge
    | None => (u, v, data) ∈ nx.edges G
    end.
Proof.
  intros Hwf. rewrite !elem_of_edges_between, add_edges_to_graph_between by done.
  destruct (last (filter _ cursor)) as [edge|];
    [|by rewrite elem_of_edges_between].
  split; [by intros [= <-] | intros; by subst].
Qed.

Lemma add_edges_to_graph_lookup (cursor : list EdgeRow) (G : nx.graph) (n : string) :
  nx.node (graph_of (add_edges_to_graph cursor G)) !! n =
    match nx.node G !! n with
    | Some a => Some a
    | None => if decide (Exists (touches n) cursor) then Some ∅ else None
    end.
Proof.
  induction cursor as [|edge cursor IH] using rev_ind.
  { cbn [add_edges_to_graph foldl graph_of]. destruct (nx.node G !! n); [done|].
    destruct (decide (Exists (touches n) [])) as [Hex|Hex]; [|done].
    by apply Exists_nil in Hex. }
  rewrite add_edges_to_graph_snoc, add_edge_lookup, IH.
  destruct (nx.node G !! n); [done|].
  destruct (decide (Exists (touches n) cursor)) as [Hex|Hex];
    destruct (decide (Exists (touches n) (cursor ++ [edge]))) as [Hex'|Hex'];
    rewrite Exists_app, Exists_cons, Exists_nil in Hex'; unfold touches in Hex';
    try done; [exfalso; intuition|..];
    case_decide; first [done | exfalso; intuition].
Qed.

(** X5. [add_edges_to_graph] never changes the attributes of a node the
    graph already has, and it turns every endpoint of a row that is not yet
    a node into a node without attributes; no other node appears. *)
Theorem add_edges_to_graph_nodes (cursor : list EdgeRow) (G : nx.graph) (n : string) :
  let G' := graph_of (add_edges_to_graph cursor G) in
  (∀ a, nx.node G !! n = Some a → nx.node G' !! n = Some a) ∧
  (nx.node G !! n = None →
   (Exists (touches n) cursor → nx.node G' !! n = Some ∅) ∧
   (¬ Exists (touches n) cursor → nx.node G' !! n = None)).
Proof.
  cbv zeta. rewrite add_edges_to_graph_lookup. split.
  - by intros a ->.
  - intros ->. split; intros Hex; by case_decide.
Qed.

Lemma add_edges_to_graph_imported cursor G :
  imported (add_edges_to_graph cursor G) = Z.of_nat (length cursor).
Proof.
  unfold add_edges_to_graph.
  induction cursor as [|edge cursor IH] using rev_ind; [done|].
  rewrite foldl_snoc, length_app. simpl. rewrite IH. lia.
Qed.

(** X6. The number [add_edges_to_graph] logs as imported edges is the
    number of rows read; a directed graph that had no edge has at most that
    many edges afterwards, since rows naming the same ordered pair share one
    edge. *)
Theorem add_edges_to_graph_count (cursor : list EdgeRow) (G : nx.graph) :
  same_keys G → nx.directed G = true → nx.edges G = [] →
  imported (add_edges_to_graph cursor G) = Z.of_nat (length cursor) ∧
  (length (nx.edges (graph_of (add_edges_to_graph cursor G))) ≤ length cursor)%nat.
Proof.
  intros Hwf Hd Hnone. split; [apply add_edges_to_graph_imported|].
  rewrite <- (length_fmap fst (nx.edges _)).
  rewrite <- (length_fmap (λ edge, (edge0 edge, edge1 edge)) cursor).
  apply submseteq_length, NoDup_submseteq; [apply NoDup_edges|].
  intros [u v] Hin. apply list_elem_of_fmap in Hin as [[[u' v'] data] [[= <- <-] Hin]].
  apply elem_of_edges_between in Hin.
  rewrite add_edges_to_graph_between, Hd in Hin by done.
  destruct (last (filter (joins true u v) cursor)) as [edge|] eqn:Hlast.
  - apply last_Some in Hlast as [l' Hl'].
    assert (edge ∈ filter (joins true u v) cursor) as Hedge.
    { rewrite Hl'. apply elem_of_app. right. apply list_elem_of_here. }
    apply list_elem_of_filter in Hedge as [[[<- <-]|(? & _)] Hedge]; [|done].
    by apply (list_elem_of_fmap_2 (λ edge, (edge0 edge, edge1 edge))).
  - assert ((u, v, data) ∈ nx.edges G) as Hold by (by apply elem_of_edges_between).
    rewrite Hnone in Hold. by apply elem_of_nil in Hold.
Qed.

(** ** [row_to_dictionary] *)

(** X1. With [exclude_None] false, [row_to_dictionary] copies no column at
    all: it returns the empty dictionary for every row. *)
Theorem row_to_dictionary_keep_None (row_obj : Row) :
  row_to_dictionary row_obj false = ∅.
Proof.
  unfold row_to_dictionary.
  induction (columns row_obj) as [|col cols IH] using rev_ind; [done|].
  by rewrite foldl_snoc.
Qed.

(** X2. The dictionary [row_to_dictionary] builds never holds [None]: every
    entry is a non-null column of the row under its own name, the last such
    column when a name repeats, and every name with a non-null column is a
    key. *)
Theorem row_to_dictionary_entries (row_obj : Row) (k : string) :
  (∀ v, row_to_dictionary row_obj true !! k = Some v →
        v ≠ PyNone ∧
        ∃ before after,
          columns row_obj = before ++ (k, v) :: after ∧
          ∀ v', (k, v') ∈ after → v' = PyNone) ∧
  (∀ v, (k, v) ∈ columns row_obj → v ≠ PyNone →
        is_Some (row_to_dictionary row_obj true !! k)).
Proof.
  rewrite row_to_dictionary_lookup. unfold non_null_column.
  induction (columns row_obj) as [|[c x] cols IH] using rev_ind.
  { split; [done|]. by intros v ?%elem_of_nil. }
  destruct IH as [IHentry IHkey].
  rewrite omap_app, last_app. simpl.
  destruct (decide (c = k)) as [->|Hne]; [destruct (is_not_None x) eqn:Hx|]; simpl.
  - split.
    + intros v [= <-]. split; [by destruct x|].
      exists cols, []. split; [done|]. by intros v' ?%elem_of_nil.
    + intros v _ _. by eexists.
  - destruct x; try done. split.
    + intros v Hv. destruct (IHentry v Hv) as (Hnn & before & after & -> & Hafter).
      split; [done|]. exists before, (after ++ [(k, PyNone)]).
      split; [by rewrite <- app_assoc|].
      intros v' [Hin|[= ->]%list_elem_of_singleton]%elem_of_app; [by apply Hafter|done].
    + intros v [Hin|[= ->]%list_elem_of_singleton]%elem_of_app Hnn; [by apply (IHkey v)|done].
  - split.
    + intros v Hv. destruct (IHentry v Hv) as (Hnn & before & after & -> & Hafter).
      split; [done|]. exists before, (after ++ [(c, x)]).
      split; [by rewrite <- app_assoc|].
      intros v' [Hin|[= -> ->]%list_elem_of_singleton]%elem_of_app; [by apply Hafter|done].
    + intros v [Hin|[= -> ->]%list_elem_of_singleton]%elem_of_app Hnn; [by apply (IHkey v)|done].
Qed.

(** ** The node-set queries *)

Lemma elem_of_stage_fmap node_type node_type' npi (l : list string) :
  stage node_type npi ∈ stage node_type' <$> l ↔ node_type = node_type' ∧ npi ∈ l.
Proof.
  rewrite list_elem_of_fmap. split.
  - by intros [npi' [[= -> ->] Hin]].
  - intros [-> Hin]. by exists npi.
Qed.

Section NodeSets.

Context (eval_where : string → detail_row → bool).

Lemma elem_of_query_first_part where_criteria d npi :
  npi ∈ query_first_part eval_where where_criteria d ↔
  ∃ tnd rt, tnd ∈ npi_detail_table d ∧ rt ∈ referral_table d ∧
            tnd_npi tnd = npi ∧ eval_where where_criteria tnd = true ∧
            field_from_relationship rt = npi.
Proof.
  unfold query_first_part. rewrite elem_of_remove_dups, list_elem_of_bind. split.
  - intros (rt & Hin & Hrt). apply list_elem_of_bind in Hin as (tnd & Hin & Htnd).
    case_decide as Hjoin; [|by apply elem_of_nil in Hin].
    destruct (eval_where where_criteria tnd) eqn:Hwhere; [|by apply elem_of_nil in Hin].
    apply list_elem_of_singleton in Hin as ->. by exists tnd, rt.
  - intros (tnd & rt & Htnd & Hrt & <- & Hwhere & Hjoin). exists rt. split; [|done].
    apply list_elem_of_bind. exists tnd. split; [|done].
    rewrite decide_True, Hwhere by done. apply list_elem_of_here.
Qed.

Lemma elem_of_query_second_part where_criteria d npi :
  npi ∈ query_second_part eval_where where_criteria d ↔
  ∃ tnd rt, tnd ∈ npi_detail_table d ∧ rt ∈ referral_table d ∧
            tnd_npi tnd = npi ∧ eval_where where_criteria tnd = true ∧
            field_to_relationship rt = npi.
Proof.
  unfold query_second_part. rewrite elem_of_remove_dups, list_elem_of_bind. split.
  - intros (rt & Hin & Hrt). apply list_elem_of_bind in Hin as (tnd & Hin & Htnd).
    case_decide as Hjoin; [|by apply elem_of_nil in Hin].
    destruct (eval_where where_criteria tnd) eqn:Hwhere; [|by apply elem_of_nil in Hin].
    apply list_elem_of_singleton in Hin as ->. by exists tnd, rt.
  - intros (tnd & rt & Htnd & Hrt & <- & Hwhere & Hjoin). exists rt. split; [|done].
    apply list_elem_of_bind. exists tnd. split; [|done].
    rewrite decide_True, Hwhere by done. apply list_elem_of_here.
Qed.

Lemma elem_of_core_table where_criteria d node_type npi :
  stage node_type npi ∈ rows (core_table eval_where where_criteria d) ↔
  node_type = "C" ∧
  ∃ tnd rt, tnd ∈ npi_detail_table d ∧ rt ∈ referral_table d ∧
            tnd_npi tnd = npi ∧ eval_where where_criteria tnd = true ∧
            (field_from_relationship rt = npi ∨ field_to_relationship rt = npi).
Proof.
  unfold core_table. simpl.
  rewrite elem_of_stage_fmap, elem_of_remove_dups, elem_of_app,
    elem_of_query_first_part, elem_of_query_second_part.
  split.
  - intros [-> [(tnd & rt & ? & ? & ? & ? & ?)|(tnd & rt & ? & ? & ? & ? & ?)]];
      (split; [done|]); exists tnd, rt; split_and!; auto.
  - intros [-> (tnd & rt & ? & ? & ? & ? & [?|?])]; (split; [done|]);
      [left|right]; by exists tnd, rt.
Qed.

Lemma elem_of_leaf_npis d t npi :
  npi ∈ leaf_npis d t ↔
  (npi ∉ neg_npi <$> rows t) ∧
  ∃ rt neg, rt ∈ referral_table d ∧ neg ∈ rows t ∧
    ((field_to_relationship rt = neg_npi neg ∧ field_from_relationship rt = npi) ∨
     (field_from_relationship rt = neg_npi neg ∧ field_to_relationship rt = npi)).
Proof.
  unfold leaf_npis.
  rewrite list_elem_of_filter, elem_of_remove_dups, elem_of_app, !elem_of_remove_dups,
    !list_elem_of_bind.
  split.
  - intros [Hnot [(neg & Hin & Hneg)|(neg & Hin & Hneg)]]; (split; [done|]);
      apply list_elem_of_bind in Hin as (rt & Hin & Hrt);
      (case_decide as Hjoin; [|by apply elem_of_nil in Hin]);
      apply list_elem_of_singleton in Hin as ->; exists rt, neg; split_and!; auto.
  - intros [Hnot (rt & neg & Hrt & Hneg & [[Hjoin <-]|[Hjoin <-]])]; (split; [done|]);
      [left|right]; exists neg; (split; [|done]);
      apply list_elem_of_bind; exists rt; (split; [|done]);
      rewrite decide_True by done; apply list_elem_of_here.
Qed.

(** The staging table a run leaves behind. *)
Lemma run_staging where_criteria file_name_prefix add_leaf_to_leaf_edges
    node_label_name add_leaf_nodes graph_type csv_output directory w :
  npi_to_export_to_graph
    (db (extract_provider_network eval_where where_criteria file_name_prefix
           add_leaf_to_leaf_edges node_label_name add_leaf_nodes graph_type
           csv_output directory w).2) =
  Some (match new_graph graph_type with
        | Some _ => final_table eval_where where_criteria add_leaf_nodes (db w)
        | None => core_table eval_where where_criteria (db w)
        end).
Proof.
  destruct (new_graph graph_type) as [G|] eqn:HG.
  - by erewrite extract_run.
  - by erewrite extract_unbound.
Qed.

Lemma elem_of_final_table where_criteria add_leaf_nodes d node_type npi :
  stage node_type npi ∈ rows (final_table eval_where where_criteria add_leaf_nodes d) ↔
  stage node_type npi ∈ rows (core_table eval_where where_criteria d) ∨
  (add_leaf_nodes = true ∧ node_type = "L" ∧
   npi ∈ leaf_npis d (core_table eval_where where_criteria d)).
Proof.
  unfold final_table. destruct add_leaf_nodes; simpl.
  - rewrite elem_of_app, !elem_of_stage_fmap.
    split; intros [?|?]; first [by left | right; by destruct_and!].
  - split; [by left|]. by intros [?|[? _]].
Qed.

(** X7. The identifiers a run stages as core are exactly those of the
    detail rows that satisfy the where clause and occur in the referral
    table, as the from side or the to side of some referral; a provider
    that matches the where clause but has no referral is not staged. *)
Theorem core_identifiers (where_criteria file_name_prefix : string)
    (add_leaf_to_leaf_edges : bool) (node_label_name : option string)
    (add_leaf_nodes : bool) (graph_type : string) (csv_output : bool)
    (directory : string) (w : world) (npi : string) :
  let out :=
    extract_provider_network eval_where where_criteria file_name_prefix
      add_leaf_to_leaf_edges node_label_name add_leaf_nodes graph_type
      csv_output directory w in
  ∃ t, npi_to_export_to_graph (db out.2) = Some t ∧
    (npi ∈ staged_as "C" t ↔
     ∃ tnd rt, tnd ∈ npi_detail_table (db w) ∧ rt ∈ referral_table (db w) ∧
               tnd_npi tnd = npi ∧ eval_where where_criteria tnd = true ∧
               (field_from_relationship rt = npi ∨ field_to_relationship rt = npi)).
Proof.
  intros out. eexists. split; [apply run_staging|].
  rewrite elem_of_staged_as.
  assert (stage "C" npi ∈ rows (core_table eval_where where_criteria (db w)) ↔
          ∃ tnd rt, tnd ∈ npi_detail_table (db w) ∧ rt ∈ referral_table (db w) ∧
               tnd_npi tnd = npi ∧ eval_where where_criteria tnd = true ∧
               (field_from_relationship rt = npi ∨ field_to_relationship rt = npi))
    as <-.
  { rewrite elem_of_core_table. split; [by intros [_ ?]|done]. }
  destruct (new_graph graph_type); [|done].
  rewrite elem_of_final_table. split; [|by left].
  by intros [?|(_ & ? & _)].
Qed.

(** X8. With a supported graph type, the identifiers a run stages as leaf
    are exactly those that are not core and that some referral joins, in
    either direction, to a core identifier; with leaf nodes disabled none
    is staged. *)
Theorem leaf_identifiers (where_criteria file_name_prefix : string)
    (add_leaf_to_leaf_edges : bool) (node_label_name : option string)
    (add_leaf_nodes : bool) (graph_type : string) (csv_output : bool)
    (directory : string) (w : world) (npi : string) :
  graph_type = "directed" ∨ graph_type = "undirected" →
  let out :=
    extract_provider_network eval_where where_criteria file_name_prefix
      add_leaf_to_leaf_edges node_label_name add_leaf_nodes graph_type
      csv_output directory w in
  ∃ t, npi_to_export_to_graph (db out.2) = Some t ∧
    (npi ∈ staged_as "L" t ↔
     add_leaf_nodes = true ∧ (npi ∉ staged_as "C" t) ∧
     ∃ rt core, rt ∈ referral_table (db w) ∧ core ∈ staged_as "C" t ∧
       ((field_to_relationship rt = core ∧ field_from_relationship rt = npi) ∨
        (field_from_relationship rt = core ∧ field_to_relationship rt = npi))).
Proof.
  intros Hgt out. eexists. split; [apply run_staging|].
  rewrite (new_graph_Some _ Hgt).
  set (core := core_table eval_where where_criteria (db w)).
  assert (∀ n, n ∈ staged_as "C" (final_table eval_where where_criteria
                                    add_leaf_nodes (db w))
               ↔ n ∈ neg_npi <$> rows core) as Hcore.
  { intros n. rewrite elem_of_staged_as, elem_of_final_table. fold core.
    unfold core, core_table. simpl. rewrite fmap_neg_npi_stage, elem_of_stage_fmap.
    split; [by intros [[_ ?]|(_ & ? & _)]|by left]. }
  rewrite elem_of_staged_as, elem_of_final_table. fold core.
  rewrite elem_of_leaf_npis, Hcore. split.
  - intros [Hc|(-> & _ & Hnot & rt & neg & Hrt & Hneg & Hjoin)].
    { by apply elem_of_core_table in Hc as [? _]. }
    split_and!; [done..|]. exists rt, (neg_npi neg). split_and!; [done| |done].
    apply Hcore. by apply list_elem_of_fmap_2.
  - intros (-> & Hnot & rt & c & Hrt & Hc & Hjoin). right. split_and!; [done..|].
    apply Hcore, list_elem_of_fmap in Hc as (neg & -> & Hneg).
    by exists rt, neg.
Qed.

End NodeSets.

(** ** The edge queries *)






(** ** The graph a run assembles *)

Section Assembled.

Context (eval_where : string → detail_row → bool).

Lemma assembled_keeps where_criteria node_label_name add_leaf_nodes
    add_leaf_to_leaf_edges G d :
  same_keys G →
  same_keys (assembled eval_where where_criteria node_label_name add_leaf_nodes
               add_leaf_to_leaf_edges G d) ∧
  nx.directed (assembled eval_where where_criteria node_label_name add_leaf_nodes
                 add_leaf_to_leaf_edges G d) = nx.directed G.
Proof.
  intros Hwf. unfold assembled.
  set (G1 := add_nodes_to_graph _ G "core" node_label_name).
  destruct (add_nodes_to_graph_keeps
              (npi_detail_query_to_execute d (core_table eval_where where_criteria d))
              G "core" node_label_name Hwf) as (Hwf1 & Hd1 & _). fold G1 in Hwf1, Hd1.
  set (G2 := if add_leaf_nodes then _ else G1).
  assert (same_keys G2 ∧ nx.directed G2 = nx.directed G) as [Hwf2 Hd2].
  { unfold G2. destruct add_leaf_nodes; [|done].
    destruct (add_nodes_to_graph_keeps
                (populate_leaf_nodes_query_to_execute d
                   (final_table eval_where where_criteria true d))
                G1 "leaf" node_label_name Hwf1) as (? & ? & _).
    split; [done|congruence]. }
  destruct (add_edges_to_graph_keeps
              (add_core_query_to_execute d
                 (final_table eval_where where_criteria add_leaf_nodes d))
              G2 Hwf2) as [Hwf3 Hd3].
  destruct add_leaf_to_leaf_edges; [|split; [done|congruence]].
  destruct (add_edges_to_graph_keeps
              (leaf_query_to_execute d
                 (final_table eval_where where_criteria add_leaf_nodes d))
              _ Hwf3) as [Hwf4 Hd4].
  split; [done|congruence].
Qed.


End Assembled.





Section Edges.

Context (eval_where : string → detail_row → bool).







End Edges.

(** ** The node CSV, the command line and reruns *)

(** X12. Every row the node CSV block writes after the header is one cell
    longer than the header: the node id, then a cell for the header's own
    [node_id] column, then the attribute cells.  A graph with no node gets
    no header, and otherwise there is one row per node. *)
Theorem node_csv_row_lengths (G : nx.graph) (path : string) (w : world) :
  ∃ written,
    files (write_node_csv G path w).2 !! path = Some (CSV written) ∧
    match written with
    | [] => nx.nodes G = []
    | header :: body =>
        length body = length (nx.nodes G) ∧
        Forall (λ row, length row = S (length header)) body ∧
        ∀ i row node, body !! i = Some row → nx.nodes G !! i = Some node →
          row !! 0%nat = Some (PyStr node.1) ∧
          row !! 1%nat = Some (default (PyStr "") (node.2 !! "node_id"))
    end.
Proof.
  rewrite write_node_csv_total. simpl. rewrite lookup_insert_eq.
  eexists. split; [done|]. unfold node_csv_rows.
  destruct (nx.nodes G) as [|first rest] eqn:Hnodes; [done|].
  cbv zeta. split_and!.
  - by rewrite length_fmap.
  - apply Forall_fmap, Forall_forall. intros node _. simpl.
    by rewrite !length_fmap.
  - intros i row node Hrow Hnode.
    rewrite list_lookup_fmap, Hnode in Hrow. by injection Hrow as <-.
Qed.

(** X13. The command line raises exactly when [sys.argv] has no element or
    has the predicate as its only argument, and what it raises is the index
    error; carrying out such an invocation leaves the world as it was. *)
Theorem main_raises (eval_where : string → detail_row → bool)
    (argv : list string) (w : world) :
  (main argv = Raise IndexError ↔ length argv = 0%nat ∨ length argv = 2%nat) ∧
  (∀ e, main argv = Raise e → e = IndexError ∧ run eval_where (main argv) w = (Raise e, w)).
Proof.
  assert (∀ e, main argv = Raise e →
               e = IndexError ∧ (length argv = 0%nat ∨ length argv = 2%nat)) as Hraise.
  { intros e. unfold main.
    destruct argv as [|script [|where_criteria [|file_name_prefix flags]]]; simpl.
    - intros [= <-]. auto.
    - done.
    - intros [= <-]. auto.
    - by repeat case_decide. }
  split.
  - split; [by intros [_ ?]%Hraise|].
    destruct argv as [|script [|where_criteria [|file_name_prefix flags]]];
      simpl; intros [?|?]; done.
  - intros e He. destruct (Hraise e He) as [-> _]. split; [done|]. by rewrite He.
Qed.

Lemma exported_twice file_name_prefix csv_output directory G (files : gmap string file) :
  exported file_name_prefix csv_output directory G
    (exported file_name_prefix csv_output directory G files)
  = exported file_name_prefix csv_output directory G files.
Proof.
  unfold exported. apply map_eq. intros p.
  destruct csv_output; rewrite !lookup_insert; repeat case_decide; done.
Qed.

Section Reruns.

Context (eval_where : string → detail_row → bool).

(** X14. A run ignores whatever staging table it finds: started in two
    worlds that differ only in [npi_to_export_to_graph], it returns the
    same result and leaves the same world. *)
Theorem stale_staging_ignored (where_criteria file_name_prefix : string)
    (add_leaf_to_leaf_edges : bool) (node_label_name : option string)
    (add_leaf_nodes : bool) (graph_type : string) (csv_output : bool)
    (directory : string) (w : world) (stale : option staging_table) :
  extract_provider_network eval_where where_criteria file_name_prefix
    add_leaf_to_leaf_edges node_label_name add_leaf_nodes graph_type
    csv_output directory {| db := set_staging (db w) stale; files := files w |}
  = extract_provider_network eval_where where_criteria file_name_prefix
      add_leaf_to_leaf_edges node_label_name add_leaf_nodes graph_type
      csv_output directory w.
Proof.
  destruct (new_graph graph_type) as [G|] eqn:HG.
  - by rewrite !(extract_run _ _ _ _ _ _ _ _ _ _ G HG).
  - by rewrite !(extract_unbound _ _ _ _ _ _ _ _ _ _ HG).
Qed.

(** X15. Running the extraction a second time with the same arguments, in
    the world the first run left, returns the same result and changes
    nothing. *)
Theorem rerun_changes_nothing (where_criteria file_name_prefix : string)
    (add_leaf_to_leaf_edges : bool) (node_label_name : option string)
    (add_leaf_nodes : bool) (graph_type : string) (csv_output : bool)
    (directory : string) (w : world) :
  let out :=
    extract_provider_network eval_where where_criteria file_name_prefix
      add_leaf_to_leaf_edges node_label_name add_leaf_nodes graph_type
      csv_output directory w in
  extract_provider_network eval_where where_criteria file_name_prefix
    add_leaf_to_leaf_edges node_label_name add_leaf_nodes graph_type
    csv_output directory out.2 = out.
Proof.
  intros out. unfold out.
  destruct (new_graph graph_type) as [G|] eqn:HG.
  - rewrite !(extract_run _ _ _ _ _ _ _ _ _ _ G HG). cbn [snd db files].
    by rewrite exported_twice.
  - by rewrite !(extract_unbound _ _ _ _ _ _ _ _ _ _ HG).
Qed.


End Reruns.

(** ** The nodes a run exports *)




Section Nodes.

Context (eval_where : string → detail_row → bool).





End Nodes.

(** ** Instances *)

Lemma add_edges_to_graph_last_witness :
  same_keys nx.DiGraph ∧
  ("B", "A", {| nx.weight := PyInt 9; nx.edge_type := "leaf-to-core" |})
    ∈ nx.edges (graph_of (add_edges_to_graph repeated_rows nx.DiGraph)).
Proof.
  assert (same_keys nx.DiGraph) as Hkeys by (intros n; split; reflexivity).
  split; [exact Hkeys|].
  apply (add_edges_to_graph_last repeated_rows nx.DiGraph "B" "A" _ Hkeys).
  reflexivity.
Defined.

Lemma add_edges_to_graph_count_witness :
  same_keys nx.DiGraph ∧ nx.directed nx.DiGraph = true ∧ nx.edges nx.DiGraph = [] ∧
  (length (nx.edges (graph_of (add_edges_to_graph repeated_rows nx.DiGraph))) ≤ 2)%nat.
Proof.
  assert (same_keys nx.DiGraph) as Hkeys by (intros n; split; reflexivity).
  split_and!; [exact Hkeys | reflexivity | reflexivity |].
  apply (add_edges_to_graph_count repeated_rows nx.DiGraph Hkeys eq_refl eq_refl).
Defined.

Lemma leaf_identifiers_witness :
  ("directed" = "directed" ∨ "directed" = "undirected") ∧
  ∃ t, npi_to_export_to_graph (db (scenario_run true).2) = Some t ∧
       ("B" ∈ staged_as "L" t → "B" ∉ staged_as "C" t).
Proof.
  split; [by left|].
  destruct (leaf_identifiers selects_A "npi = 'A'" "scenario" true
              (Some "provider_name") true "directed" true "./" scenario_world "B"
              (or_introl eq_refl)) as (t & Ht & Hleaf).
  exists t. split; [exact Ht|]. intros HB. by apply Hleaf in HB as (_ & ? & _).
Defined.


(** ** The attributes of an exported node *)










Section NodeAttributes.

Context (eval_where : string → detail_row → bool).



End NodeAttributes.


(** ** The undirected mode *)


